(** * The Blender command bridge: registry, dispatcher, scheduler, socket
      server and client connector

    A shallow embedding of
      - [blender_addon/api/__init__.py]  (command registry),
      - [blender_addon/commands.py]      (command dispatcher),
      - [blender_addon/core.py]          (socket server, connection handler,
                                          main-thread hand-off),
      - [src/blender_mcp/server.py]      (client connector),
    followed by the properties the specification states about them. *)

From Stdlib Require Import ZArith Lia.
From Stdlib.Strings Require Byte.
From stdpp Require Import base option list strings pretty gmap sets.
From Equations Require Import Equations.
From Equations.Prop Require Import Logic.

Set Warnings "-register-all".

Local Open Scope string_scope.
Local Open Scope Z_scope.

(** ** Python values

    The values that travel through the bridge are the ones [json.loads]
    produces: [None], booleans, integers, strings, lists and string-keyed
    dicts.  A dict is kept as an association list in insertion order;
    [dict_lookup] reads the first binding of a key. *)

Inductive pyval : Type :=
| PNone
| PBool (b : bool)
| PInt (n : Z)
| PStr (s : string)
| PList (items : list pyval)
| PDict (kv : list (string * pyval)).

Definition pydict : Type := list (string * pyval).

Fixpoint dict_lookup (key : string) (kv : pydict) : option pyval :=
  match kv with
  | [] => None
  | (k, v) :: rest => if String.eqb k key then Some v else dict_lookup key rest
  end.

(** [type(v).__name__] *)
Definition type_name (v : pyval) : string :=
  match v with
  | PNone => "NoneType"
  | PBool _ => "bool"
  | PInt _ => "int"
  | PStr _ => "str"
  | PList _ => "list"
  | PDict _ => "dict"
  end.

(** [str(v)] as an f-string interpolates it.  The dispatcher only formats a
    value that has just been used as a dict key, hence a hashable scalar;
    for containers the membership test has raised before the f-string is
    reached, and the text given here is never produced. *)
Definition py_str (v : pyval) : string :=
  match v with
  | PNone => "None"
  | PBool true => "True"
  | PBool false => "False"
  | PInt n => pretty n
  | PStr s => s
  | PList _ | PDict _ => type_name v
  end.

(** [v == s] for a string literal [s]. *)
Definition eq_str (v : pyval) (s : string) : bool :=
  match v with
  | PStr t => String.eqb t s
  | _ => false
  end.

(** [v is None] *)
Definition is_None (v : pyval) : bool :=
  match v with
  | PNone => true
  | _ => false
  end.

(** ** Exceptions

    The part of Python's exception hierarchy that the [except] clauses of the
    sources tell apart. *)

Inductive exn_class : Type :=
| ExitRequest        (* SystemExit, KeyboardInterrupt, GeneratorExit:
                        BaseException, but not Exception *)
| PlainException     (* Exception and the subclasses not named below *)
| TypeError
| AttributeError
| UnicodeDecodeError
| JSONDecodeError    (* json.JSONDecodeError, a ValueError *)
| OSError            (* socket.error is an alias of OSError *)
| ConnectionError    (* a subclass of OSError *)
| SocketTimeout.     (* socket.timeout, a subclass of OSError *)

Record exn : Type := Exn { exn_class_of : exn_class; exn_text : string }.

(** [isinstance(e, Exception)]: what [except Exception] catches. *)
Definition is_Exception (e : exn) : bool :=
  match exn_class_of e with
  | ExitRequest => false
  | _ => true
  end.

(** [isinstance(e, socket.error)] *)
Definition is_socket_error (e : exn) : bool :=
  match exn_class_of e with
  | OSError | ConnectionError | SocketTimeout => true
  | _ => false
  end.

(** [isinstance(e, socket.timeout)] *)
Definition is_socket_timeout (e : exn) : bool :=
  match exn_class_of e with
  | SocketTimeout => true
  | _ => false
  end.

(** [isinstance(e, json.JSONDecodeError)] *)
Definition is_JSONDecodeError (e : exn) : bool :=
  match exn_class_of e with
  | JSONDecodeError => true
  | _ => false
  end.

(** Errors the interpreter itself raises while running the bridge.  Their
    wording belongs to the interpreter, not to the repository, and is a
    parameter of the development. *)
Inductive fault : Type :=
| Unhashable (type : string)              (* key in dict, key a list or dict *)
| NotAMapping (callee : string) (type : string)
                                          (* f( **x ), x not a mapping *)
| NoAttribute (type : string) (attr : string).  (* x.attr, attr missing *)

Inductive outcome (A : Type) : Type :=
| Return (a : A)
| Raise (e : exn).
Arguments Return {A} a.
Arguments Raise {A} e.

(** [obj.get(key, dflt)]: only a dict has the method. *)
Definition py_get (interp_text : fault -> string) (obj : pyval) (key : string)
    (dflt : pyval) : outcome pyval :=
  match obj with
  | PDict kv => Return (default dflt (dict_lookup key kv))
  | _ => Raise (Exn AttributeError (interp_text (NoAttribute (type_name obj) "get")))
  end.

(** Truth value of a value, as [x or y] and [if x] take it. *)
Definition py_truthy (v : pyval) : bool :=
  match v with
  | PNone => false
  | PBool b => b
  | PInt n => negb (n =? 0)
  | PStr s => negb (String.eqb s "")
  | PList items => match items with [] => false | _ => true end
  | PDict kv => match kv with [] => false | _ => true end
  end.

(** ** Response envelopes *)

Definition success_envelope (result : pyval) : pyval :=
  PDict [("status", PStr "success"); ("result", result)].

Definition error_envelope (message : string) : pyval :=
  PDict [("status", PStr "error"); ("message", PStr message)].

Definition well_formed_envelope (v : pyval) : Prop :=
  (exists result, v = success_envelope result) \/
  (exists message, v = error_envelope message).

(** The bytes a socket carries. *)
Definition bytes : Type := list Byte.byte.

(** ** Computations over a state that may raise

    [M S A] is a Python block running against a mutable state [S]: it ends
    by returning a value or by raising, and leaves the state as mutated up
    to that point. *)

Definition M (S A : Type) : Type := S -> outcome A * S.

Definition ret {S A} (a : A) : M S A := fun s => (Return a, s).

Definition raise {S A} (e : exn) : M S A := fun s => (Raise e, s).

Definition lift {S A} (o : outcome A) : M S A := fun s => (o, s).

Definition get {S} : M S S := fun s => (Return s, s).

Definition modify {S} (f : S -> S) : M S unit := fun s => (Return tt, f s).

Definition bind {S A B} (m : M S A) (k : A -> M S B) : M S B :=
  fun s =>
    match m s with
    | (Return a, s') => k a s'
    | (Raise e, s') => (Raise e, s')
    end.

Notation "x <- m ;; k" := (bind m (fun x => k))
  (at level 100, m at next level, right associativity).

(** [try: body  except ...]: [clauses e] is the body of the first [except]
    clause that matches [e], or [None] when no clause matches and [e]
    propagates. *)
Definition try_except {S A} (body : M S A) (clauses : exn -> option (M S A)) : M S A :=
  fun s =>
    match body s with
    | (Return a, s') => (Return a, s')
    | (Raise e, s') =>
        match clauses e with
        | Some recover => recover s'
        | None => (Raise e, s')
        end
    end.

(** [try: body  except Exception as e: recover(e)] *)
Definition try_except_Exception {S A} (body : M S A) (recover : exn -> M S A) : M S A :=
  try_except body (fun e => if is_Exception e then Some (recover e) else None).

(** [try: body  except: pass] *)
Definition try_except_pass {S} (body : M S unit) : M S unit :=
  try_except body (fun _ => Some (ret tt)).

(** ** Command registry ([blender_addon/api/__init__.py]) *)

Module api.
Section Registry.
Context {World : Type}.

(** A handler is a Python function: the name under which the interpreter
    shows it in its messages (module and qualified name), its docstring,
    and its call with keyword arguments, which runs against the host
    application [World] and returns or raises (a keyword the signature does
    not take raises [TypeError] from the call itself).  A function object
    is always truthy. *)
Record handler : Type := Handler {
  h_name : string;
  h_doc : option string;
  h_call : pydict -> M World pyval
}.

Record entry : Type := Entry {
  e_handler : handler;
  e_description : string
}.

(** Truth value of an optional string: [None] and the empty string are falsy. *)
Definition str_truthy (o : option string) : bool :=
  match o with
  | Some s => negb (String.eqb s "")
  | None => false
  end.

(** [a or b] *)
Definition or_else (a b : option string) : option string :=
  if str_truthy a then a else b.

(** [register_command(command_name, description)(handler_function)]: the
    effect of the decorator on [_command_registry]. *)
Definition register_command (command_name : string) (description : option string)
    (handler_function : handler) (_command_registry : gmap string entry)
  : gmap string entry :=
  <[ command_name :=
       {| e_handler := handler_function;
          e_description :=
            default "No description provided"
              (or_else (or_else description (h_doc handler_function))
                       (Some "No description provided")) |} ]>
    _command_registry.

Definition get_command (_command_registry : gmap string entry)
    (command_name : string) : option handler :=
  match _command_registry !! command_name with
  | Some e => Some (e_handler e)
  | None => None
  end.

Definition get_all_commands (_command_registry : gmap string entry)
  : gmap string entry := _command_registry.

(** The entry the decorator stores for [handler_function]. *)
Definition decorated_entry (description : option string) (handler_function : handler)
  : entry :=
  {| e_handler := handler_function;
     e_description :=
       default "No description provided"
         (or_else (or_else description (h_doc handler_function))
                  (Some "No description provided")) |}.

(** [_command_registry] with the order a Python dict keeps: the assignment
    [d[k] = v] replaces the value of a key where the key stands, and puts a
    new key at the end. *)
Fixpoint dict_assign (command_name : string) (e : entry)
    (items : list (string * entry)) : list (string * entry) :=
  match items with
  | [] => [(command_name, e)]
  | (k, v) :: rest =>
      if String.eqb k command_name then (k, e) :: rest
      else (k, v) :: dict_assign command_name e rest
  end.

(** The decorator on the registry in dict order. *)
Definition register_command_ordered (command_name : string)
    (description : option string) (handler_function : handler)
    (items : list (string * entry)) : list (string * entry) :=
  dict_assign command_name (decorated_entry description handler_function) items.

End Registry.
Arguments handler : clear implicits.
Arguments entry : clear implicits.
End api.

(** ** Command dispatcher ([blender_addon/commands.py]) *)

Module commands.
Section Dispatcher.
Context {World : Type}.
Variable interp_text : fault -> string.

(** [get_command(command_type)] on whatever value the envelope carried as
    its type: a list or a dict cannot be hashed and the membership test
    raises; a scalar other than a string equals no key of the registry. *)
Definition lookup_handler (_command_registry : gmap string (api.entry World))
    (command_type : pyval) : outcome (option (api.handler World)) :=
  match command_type with
  | PStr s => Return (api.get_command _command_registry s)
  | PList _ | PDict _ =>
      Raise (Exn TypeError (interp_text (Unhashable (type_name command_type))))
  | _ => Return None
  end.

(** [handler( **params )]: the call with the dict unpacked into keywords.
    The interpreter refuses anything but a mapping before the function is
    entered, in a message that names the function. *)
Definition call_kwargs (h : api.handler World) (params : pyval) : M World pyval :=
  match params with
  | PDict kv => api.h_call h kv
  | _ => raise (Exn TypeError
                  (interp_text (NotAMapping (api.h_name h) (type_name params))))
  end.

Definition execute_command (_command_registry : gmap string (api.entry World))
    (command_type : pyval) (params : pyval) : M World pyval :=
  let params := if is_None params then PDict [] else params in
  try_except_Exception
    (handler <- lift (lookup_handler _command_registry command_type) ;;
     match handler with
     | Some h =>
         result <- call_kwargs h params ;;
         ret (success_envelope result)
     | None =>
         ret (error_envelope ("Unknown command type: " +:+ py_str command_type))
     end)
    (fun e => ret (error_envelope (exn_text e))).

(** [get_available_commands()] *)
Definition get_available_commands (_command_registry : gmap string (api.entry World))
  : gmap string string :=
  api.e_description <$> api.get_all_commands _command_registry.

End Dispatcher.
End commands.

(** ** Command discovery ([blender_addon/api/system.py]) *)

Module system.
Section Discovery.
Context {World : Type}.

(** [list_commands()], reading the registry in dict order. *)
Definition list_commands (registry : list (string * api.entry World)) : pyval :=
  let cmds :=
    map (fun item =>
           PDict [("name", PStr item.1);
                  ("description", PStr (api.e_description item.2))])
        registry in
  PDict [("commands", PList cmds); ("count", PInt (Z.of_nat (length cmds)))].

End Discovery.
End system.

(** ** Socket server and main-thread hand-off ([blender_addon/core.py]) *)

Module core.

(** The server object.  Sockets and threads are named by handles. *)
Record BlenderMCPServer : Type := Server {
  host : string;
  port : Z;
  running : bool;
  socket : option nat;
  server_thread : option nat
}.

(** [BlenderMCPServer(host, port)] *)
Definition __init__ (host : string) (port : Z) : BlenderMCPServer :=
  {| host := host; port := port; running := false;
     socket := None; server_thread := None |}.

(** The server object within its process: the sockets the process holds
    open are part of the state [start] and [stop] act on. *)
Record process : Type := Process {
  self : BlenderMCPServer;
  open_sockets : gset nat
}.

Definition set_running (b : bool) (p : process) : process :=
  {| self := {| host := host (self p); port := port (self p); running := b;
                socket := socket (self p);
                server_thread := server_thread (self p) |};
     open_sockets := open_sockets p |}.

Definition set_socket (o : option nat) (p : process) : process :=
  {| self := {| host := host (self p); port := port (self p);
                running := running (self p); socket := o;
                server_thread := server_thread (self p) |};
     open_sockets := open_sockets p |}.

Definition set_server_thread (o : option nat) (p : process) : process :=
  {| self := {| host := host (self p); port := port (self p);
                running := running (self p); socket := socket (self p);
                server_thread := o |};
     open_sockets := open_sockets p |}.

(** [socket.socket(...)] succeeding with handle [fd] *)
Definition opened (fd : nat) (p : process) : process :=
  {| self := self p; open_sockets := {[ fd ]} ∪ open_sockets p |}.

(** [sock.close()] releases the handle, whether or not it reports an error. *)
Definition closed (fd : nat) (p : process) : process :=
  {| self := self p; open_sockets := open_sockets p ∖ {[ fd ]} |}.

(** What the operating system answers to the calls [start] makes. *)
Record start_env : Type := StartEnv {
  socket_result : outcome nat;         (* socket.socket(AF_INET, SOCK_STREAM) *)
  setsockopt_result : outcome unit;    (* setsockopt(SO_REUSEADDR) *)
  bind_result : outcome unit;          (* bind((host, port)) *)
  listen_result : outcome unit;        (* listen(1) *)
  thread_handle : nat;                 (* threading.Thread(target=_server_loop) *)
  thread_start_result : outcome unit   (* server_thread.start() *)
}.

Definition stop (p : process) : process :=
  let p := set_running false p in
  let p :=
    match socket (self p) with
    | Some fd => set_socket None (closed fd p)   (* try: close()  except: pass *)
    | None => p
    end in
  match server_thread (self p) with
  | Some _ => set_server_thread None p           (* join(timeout=1.0), if alive *)
  | None => p
  end.

Definition start (env : start_env) : M process unit :=
  fun p =>
    if running (self p) then (Return tt, p)
    else
      try_except_Exception
        (fd <- lift (socket_result env) ;;
         _ <- modify (fun p => set_socket (Some fd) (opened fd p)) ;;
         _ <- lift (setsockopt_result env) ;;
         _ <- lift (bind_result env) ;;
         _ <- lift (listen_result env) ;;
         _ <- modify (set_server_thread (Some (thread_handle env))) ;;
         lift (thread_start_result env))
        (fun e => modify stop)
        (set_running true p).

Section Scheduler.
Context {World : Type}.
Variable interp_text : fault -> string.

Definition _execute_command_internal (_command_registry : gmap string (api.entry World))
    (command : pyval) : M World pyval :=
  try_except_Exception
    (command_type <- lift (py_get interp_text command "type" (PStr "")) ;;
     params <- lift (py_get interp_text command "params" (PDict [])) ;;
     if eq_str command_type "ping" then ret (success_envelope (PStr "pong"))
     else commands.execute_command interp_text _command_registry command_type params)
    (fun e => ret (error_envelope (exn_text e))).

(** [result_container] *)
Record container : Type := Container {
  result : pyval;
  done : bool
}.

Definition new_container : container := {| result := PNone; done := false |}.

(** [command_executor()], the job the host runs on its own thread.  The
    [return None] of its [finally] clause discards an exception that neither
    the body nor the [except Exception] clause has absorbed, so the job never
    raises; in that case the result slot keeps its initial [None]. *)
Definition command_executor (_command_registry : gmap string (api.entry World))
    (command : pyval) (c : container) (w : World) : container * World :=
  match
    try_except_Exception
      (r <- _execute_command_internal _command_registry command ;; ret r)
      (fun e => ret (error_envelope (exn_text e))) w
  with
  | (Return r, w') => ({| result := r; done := true |}, w')
  | (Raise _, w') => ({| result := result c; done := true |}, w')
  end.

(** Time is counted in milliseconds.  What the submitting thread meets while
    it waits: the reading of [time.time()] when the wait starts, by how much
    each [time.sleep(0.01)] and the work around it exceed the 10 ms asked
    for (a sleep does not end early and the clock does not run backwards),
    and, if the host ever runs the job, the time its completion flag is set
    and the state of the host when the job starts.  The flag is tested at
    the instant of the preceding clock reading.  Readings are whole
    milliseconds and are compared exactly, where the code compares binary
    floats: the test of a reading that lies exactly 30 s after the start
    may fall either way there, and no property below rests on the outcome
    of a test at that instant. *)
Record wait_env : Type := WaitEnv {
  start_time : Z;
  lag : nat -> nat;
  fired : option (Z * World)
}.

Definition sleep_interval : Z := 10.
Definition timeout : Z := 30000.

Definition timeout_envelope : pyval :=
  error_envelope "Command execution timed out".

(** [result_container] as the submitting thread reads it at time [now]. *)
Definition container_at (_command_registry : gmap string (api.entry World))
    (command : pyval) (env : wait_env) (now : Z) : container :=
  match fired env with
  | Some (t, w) =>
      if t <=? now then fst (command_executor _command_registry command new_container w)
      else new_container
  | None => new_container
  end.

(** The polling loop of [execute_command], entered for the [k]-th time at
    time [now]. *)
Equations? wait (_command_registry : gmap string (api.entry World))
    (command : pyval) (env : wait_env) (k : nat) (now : Z) : pyval
    by wf (Z.to_nat (start_time env + timeout + 1 - now)) lt :=
wait reg command env k now with done (container_at reg command env now) := {
  | true => result (container_at reg command env now);
  | false with inspect (now + sleep_interval + Z.of_nat (lag env k) - start_time env >? timeout) := {
      | exist _ true _ => timeout_envelope;
      | exist _ false late =>
          wait reg command env (S k) (now + sleep_interval + Z.of_nat (lag env k)) } }.
Proof. unfold sleep_interval, timeout in *. lia. Qed.

(** [BlenderMCPServer.execute_command(command)]: register the job with the
    host's timers, then wait.  [timers] is [bpy.app.timers], the jobs handed
    to the host. *)
Definition execute_command (_command_registry : gmap string (api.entry World))
    (command : pyval) (env : wait_env) (timers : list pyval) : pyval * list pyval :=
  let timers := (timers ++ [command])%list in
  (wait _command_registry command env 0 (start_time env), timers).

(** The polling loop once more, returning with the response the number of
    sleeps taken and the clock reading at the return. *)
Equations? wait_log (_command_registry : gmap string (api.entry World))
    (command : pyval) (env : wait_env) (k : nat) (now : Z) : pyval * nat * Z
    by wf (Z.to_nat (start_time env + timeout + 1 - now)) lt :=
wait_log reg command env k now with done (container_at reg command env now) := {
  | true => (result (container_at reg command env now), k, now);
  | false with inspect (now + sleep_interval + Z.of_nat (lag env k) - start_time env >? timeout) := {
      | exist _ true _ =>
          (timeout_envelope, S k, now + sleep_interval + Z.of_nat (lag env k));
      | exist _ false late =>
          wait_log reg command env (S k) (now + sleep_interval + Z.of_nat (lag env k)) } }.
Proof. unfold sleep_interval, timeout in *. lia. Qed.

(** The clock reading at the [k]-th test of the flag, should the loop get
    that far: the start, and then one sleep later each time. *)
Fixpoint poll_time (env : wait_env) (k : nat) : Z :=
  match k with
  | O => start_time env
  | S k' => poll_time env k' + sleep_interval + Z.of_nat (lag env k')
  end.

End Scheduler.

Section ConnectionHandler.
Context {World : Type}.
Variable interp_text : fault -> string.
(** The JSON codec is the interpreter's library: [loads b] stands for
    [json.loads(b.decode('utf-8'))] and [dumps v] for
    [json.dumps(v).encode('utf-8')]. *)
Variable loads : bytes -> outcome pyval.
Variable dumps : pyval -> outcome bytes.

(** One client connection as [_handle_client] sees it: its receive buffer,
    what it has written to the socket, whether the socket has been closed,
    and the host's timers.  [submitted] is a history: each command handed
    to [execute_command], with the receive buffer as it stood at the call. *)
Record connection : Type := Connection {
  buffer : bytes;
  outbox : list bytes;
  client_closed : bool;
  timers : list pyval;
  submitted : list (pyval * bytes)
}.

Definition new_connection (timers : list pyval) : connection :=
  {| buffer := []; outbox := []; client_closed := false;
     timers := timers; submitted := [] |}.

Definition set_buffer (b : bytes) (c : connection) : connection :=
  {| buffer := b; outbox := outbox c; client_closed := client_closed c;
     timers := timers c; submitted := submitted c |}.

Definition close_client (c : connection) : connection :=
  {| buffer := buffer c; outbox := outbox c; client_closed := true;
     timers := timers c; submitted := submitted c |}.

(** What one turn of the read loop meets: the value of [self.running] at
    the loop test, the answer of [client.recv(4096)], the course of the
    hand-off to the host for the command of this turn, and the outcomes of
    the two [client.sendall] calls (the response, the error report). *)
Record round : Type := Round {
  r_running : bool;
  r_recv : outcome bytes;
  r_wait : @wait_env World;
  r_sendall : outcome unit;
  r_sendall_error : outcome unit
}.

(** [client.sendall(data)] *)
Definition sendall (answer : outcome unit) (data : bytes) : M connection unit :=
  fun c =>
    match answer with
    | Return _ =>
        (Return tt,
         {| buffer := buffer c; outbox := (outbox c ++ [data])%list;
            client_closed := client_closed c; timers := timers c;
            submitted := submitted c |})
    | Raise e => (Raise e, c)
    end.

(** [self.execute_command(command)] *)
Definition submit (_command_registry : gmap string (api.entry World))
    (command : pyval) (env : wait_env) : M connection pyval :=
  fun c =>
    let '(response, timers') :=
      execute_command interp_text _command_registry command env (timers c) in
    (Return response,
     {| buffer := buffer c; outbox := outbox c; client_closed := client_closed c;
        timers := timers';
        submitted := (submitted c ++ [(command, buffer c)])%list |}).

(** The [try] statement inside the loop, run after [buffer += data]. *)
Definition handle_buffer (_command_registry : gmap string (api.entry World))
    (r : round) : M connection unit :=
  try_except
    (c <- get ;;
     command <- lift (loads (buffer c)) ;;
     _ <- modify (set_buffer []) ;;
     response <- submit _command_registry command (r_wait r) ;;
     data <- lift (dumps response) ;;
     sendall (r_sendall r) data)
    (fun e =>
       if is_JSONDecodeError e then Some (ret tt)
       else if is_Exception e then
         Some (try_except_pass
                 (data <- lift (dumps (error_envelope (exn_text e))) ;;
                  sendall (r_sendall_error r) data))
       else None).

(** Where the handler stands once the rounds it was given are used up:
    it has left the loop, or it is blocked in the next [recv]. *)
Inductive progress : Type := Exited | Reading.

(** [while self.running: ...] *)
Fixpoint read_loop (_command_registry : gmap string (api.entry World))
    (rounds : list round) : M connection progress :=
  match rounds with
  | [] => ret Reading
  | r :: rest =>
      if negb (r_running r) then ret Exited
      else
        data <- lift (r_recv r) ;;
        match data with
        | [] => ret Exited
        | _ =>
            _ <- modify (fun c => set_buffer (buffer c ++ data)%list c) ;;
            _ <- handle_buffer _command_registry r ;;
            read_loop _command_registry rest
        end
  end.

(** [_handle_client(client)]: [client.settimeout(None)] sets an option of
    an open socket and does not fail.  The [finally] clause runs when the
    handler leaves the [try], not while it is still reading. *)
Definition _handle_client (_command_registry : gmap string (api.entry World))
    (rounds : list round) : M connection progress :=
  fun c =>
    match
      try_except_Exception (read_loop _command_registry rounds)
        (fun e => ret Exited) (set_buffer [] c)
    with
    | (Return Reading, c') => (Return Reading, c')
    | (r, c') => (r, close_client c')
    end.

(** What holds of a connection whenever the loop is at its head. *)
Definition extracted_message_gone (c : connection) : Prop :=
  (buffer c = [] \/ exists e, loads (buffer c) = Raise e)
  /\ Forall (fun handed => handed.2 = []) (submitted c).

End ConnectionHandler.
(** *** The accept loop *)

(** What one turn of [_server_loop] meets: the value of [self.running] at
    the loop test and the answers to [self.socket.settimeout(0.5)] (which
    fails once [stop()] has taken the socket away), to
    [self.socket.accept()], to [client.settimeout(None)] and to
    [client_thread.start()]. *)
Record accept_round : Type := AcceptRound {
  a_running : bool;
  a_settimeout : outcome unit;
  a_accept : outcome nat;
  a_client_settimeout : outcome unit;
  a_thread_start : outcome unit
}.

(** The clients the loop has accepted, the clients a handler thread was
    started for, and the number of [time.sleep(0.1)] taken after errors,
    all oldest first. *)
Record listener : Type := Listener {
  accepted : list nat;
  handed_over : list nat;
  pauses : nat
}.

Definition new_listener : listener :=
  {| accepted := []; handed_over := []; pauses := 0 |}.

Definition accept (answer : outcome nat) : M listener nat :=
  fun l =>
    match answer with
    | Return client =>
        (Return client,
         {| accepted := (accepted l ++ [client])%list;
            handed_over := handed_over l; pauses := pauses l |})
    | Raise e => (Raise e, l)
    end.

Definition hand_over (client : nat) (l : listener) : listener :=
  {| accepted := accepted l; handed_over := (handed_over l ++ [client])%list;
     pauses := pauses l |}.

Definition pause (l : listener) : listener :=
  {| accepted := accepted l; handed_over := handed_over l; pauses := S (pauses l) |}.

(** The body of the loop. *)
Definition serve (r : accept_round) : M listener unit :=
  try_except_Exception
    (_ <- lift (a_settimeout r) ;;
     try_except
       (client <- accept (a_accept r) ;;
        _ <- lift (a_client_settimeout r) ;;
        _ <- lift (a_thread_start r) ;;
        modify (hand_over client))
       (fun e => if is_socket_timeout e then Some (ret tt) else None))
    (fun e => modify pause).

(** Where the loop stands once the rounds it was given are used up. *)
Inductive loop_progress : Type := LoopStopped | Accepting.

(** [while self.running: ...] *)
Fixpoint _server_loop (rounds : list accept_round) : M listener loop_progress :=
  match rounds with
  | [] => ret Accepting
  | r :: rest =>
      if negb (a_running r) then ret LoopStopped
      else _ <- serve r ;; _server_loop rest
  end.

(** *** The module's server instance *)

(** [create_server_instance(port)], acting on the global [server_instance]
    and returning it. *)
Definition create_server_instance (port : Z) (server_instance : option BlenderMCPServer)
  : BlenderMCPServer * option BlenderMCPServer :=
  match server_instance with
  | None => (__init__ "localhost" port, Some (__init__ "localhost" port))
  | Some server => (server, Some server)
  end.

Definition get_server_instance (server_instance : option BlenderMCPServer)
  : option BlenderMCPServer := server_instance.

(** The global [server_instance] together with the sockets of the
    process. *)
Record module_state : Type := ModuleState {
  server_instance : option BlenderMCPServer;
  sockets : gset nat
}.

(** A method of the instance run on the global: the object is shared, so
    what the method does to it is seen through the global. *)
Definition on_instance (server : BlenderMCPServer) (g : module_state) : process :=
  {| self := server; open_sockets := sockets g |}.

Definition store (p : process) : module_state :=
  {| server_instance := Some (self p); sockets := open_sockets p |}.

(** [core.unregister()] *)
Definition unregister (g : module_state) : module_state :=
  match server_instance g with
  | Some server =>
      {| server_instance := None;
         sockets := open_sockets (stop (on_instance server g)) |}
  | None => g
  end.

End core.

(** ** The panel's operators ([blender_addon/ui.py]) and the addon's
       [unregister] ([blender_addon/__init__.py]) *)

Module ui.

(** The state the operators act on: the module state of [core] and the two
    scene properties the addon registers. *)
Record blender : Type := Blender {
  core_state : core.module_state;
  blendermcp_port : Z;
  blendermcp_server_running : bool
}.

(** [BLENDERMCP_OT_StartServer.execute] *)
Definition StartServer_execute (env : core.start_env) : M blender unit :=
  fun b =>
    let '(server, instance) :=
      core.create_server_instance (blendermcp_port b)
        (core.server_instance (core_state b)) in
    match core.start env (core.on_instance server (core_state b)) with
    | (Return _, p) =>
        (Return tt,
         {| core_state := core.store p; blendermcp_port := blendermcp_port b;
            blendermcp_server_running := true |})
    | (Raise e, p) =>
        (Raise e,
         {| core_state := core.store p; blendermcp_port := blendermcp_port b;
            blendermcp_server_running := blendermcp_server_running b |})
    end.

(** [BLENDERMCP_OT_StopServer.execute] *)
Definition StopServer_execute (b : blender) : blender :=
  {| core_state :=
       match core.get_server_instance (core.server_instance (core_state b)) with
       | Some server => core.store (core.stop (core.on_instance server (core_state b)))
       | None => core_state b
       end;
     blendermcp_port := blendermcp_port b;
     blendermcp_server_running := false |}.

(** [is_running] as [BLENDERMCP_PT_Panel.draw] computes it. *)
Definition is_running (b : blender) : bool :=
  match core.get_server_instance (core.server_instance (core_state b)) with
  | Some server => core.running server
  | None => false
  end.

(** The addon's [unregister()], as far as the server goes: stop the
    instance if there is one, then [core.unregister()]. *)
Definition addon_unregister (g : core.module_state) : core.module_state :=
  core.unregister
    match core.get_server_instance (core.server_instance g) with
    | Some server => core.store (core.stop (core.on_instance server g))
    | None => g
    end.

End ui.

(** ** Client connector ([src/blender_mcp/server.py]) *)

Module server.

Record BlenderConnection : Type := Conn {
  host : string;
  port : Z;
  sock : option nat
}.

Definition set_sock (o : option nat) (c : BlenderConnection) : BlenderConnection :=
  {| host := host c; port := port c; sock := o |}.

(** What the network answers during one call: to [socket.socket(...)], to
    [sock.connect(...)], to [sock.sendall(...)], and to the successive
    [sock.recv(buffer_size)]. *)
Record call_env : Type := CallEnv {
  socket_result : outcome nat;
  connect_result : outcome unit;
  sendall_result : outcome unit;
  recvs : list (outcome bytes)
}.

Definition connect (env : call_env) : M BlenderConnection bool :=
  fun c =>
    match sock c with
    | Some _ => (Return true, c)
    | None =>
        try_except_Exception
          (fd <- lift (socket_result env) ;;
           _ <- modify (set_sock (Some fd)) ;;
           _ <- lift (connect_result env) ;;
           ret true)
          (fun e => _ <- modify (set_sock None) ;; ret false)
          c
    end.

(** [disconnect()]: the [finally] clause clears the handle however
    [close()] ends. *)
Definition disconnect (close_result : outcome unit) : M BlenderConnection unit :=
  fun c =>
    match sock c with
    | Some _ =>
        match try_except_Exception (lift close_result) (fun e => ret tt) c with
        | (r, c') => (r, set_sock None c')
        end
    | None => (Return tt, c)
    end.

Section Persistent.
(** [int(s)] is the interpreter's. *)
Variable py_int : string -> outcome Z.

(** The environment variables [get_blender_connection] reads. *)
Record environ : Type := Environ {
  BLENDER_MCP_PORT : option string;
  BLENDER_MCP_HOST : option string
}.

Definition could_not_connect : exn :=
  Exn PlainException
    "Could not connect to Blender. Make sure the Blender addon is running.".

(** [get_blender_connection()], acting on the global
    [_blender_connection].  The new connection is stored in the global
    before it connects. *)
Definition get_blender_connection (env : call_env) (vars : environ)
  : M (option BlenderConnection) BlenderConnection :=
  fun _blender_connection =>
    match _blender_connection with
    | Some c => (Return c, Some c)
    | None =>
        match py_int (default "9876" (BLENDER_MCP_PORT vars)) with
        | Raise e => (Raise e, None)
        | Return port =>
            let c := {| host := default "localhost" (BLENDER_MCP_HOST vars);
                        port := port; sock := None |} in
            match connect env c with
            | (Return true, c') => (Return c', Some c')
            | (Return false, c') => (Raise could_not_connect, None)
            | (Raise e, c') => (Raise e, Some c')
            end
        end
    end.

End Persistent.

Section Client.
Variable interp_text : fault -> string.
Variable loads : bytes -> outcome pyval.
Variable dumps : pyval -> outcome bytes.

Definition timeout_error : exn :=
  Exn PlainException "Timeout while receiving data from Blender".

(** [receive_full_response(sock)], entered with the bytes gathered so far.
    [None]: the answers supplied are used up and the call is still
    receiving. *)
Fixpoint receive_full_response (recvs : list (outcome bytes)) (buffer : bytes)
  : option (outcome bytes) :=
  match recvs with
  | [] => None
  | Raise e :: _ =>
      if is_socket_timeout e then Some (Raise timeout_error) else Some (Raise e)
  | Return [] :: _ => Some (Return buffer)
  | Return chunk :: rest =>
      let buffer := (buffer ++ chunk)%list in
      match loads buffer with
      | Return _ => Some (Return buffer)
      | Raise e =>
          if is_JSONDecodeError e then receive_full_response rest buffer
          else if is_socket_timeout e then Some (Raise timeout_error)
          else Some (Raise e)
      end
  end.

(** The chunks are non-empty and none of them completes a JSON value: the
    receive loop, entered with [buffer], takes them all and reads on. *)
Fixpoint incomplete (chunks : list bytes) (buffer : bytes) : bool :=
  match chunks with
  | [] => true
  | chunk :: rest =>
      match chunk, loads (buffer ++ chunk)%list with
      | _ :: _, Raise e => is_JSONDecodeError e && incomplete rest (buffer ++ chunk)%list
      | _, _ => false
      end
  end.

(** The command [send_command] serialises. *)
Definition command_of (command_type : string) (params : pyval) : pyval :=
  PDict [("type", PStr command_type);
         ("params", if py_truthy params then params else PDict [])].

(** [send_command(command_type, params)].  The result is [None] while the
    call is still receiving. *)
Definition send_command (env : call_env) (command_type : string) (params : pyval)
  : M BlenderConnection (option pyval) :=
  connected <- (fun c => match sock c with
                         | Some _ => (Return true, c)
                         | None => connect env c
                         end) ;;
  if negb connected then raise (Exn ConnectionError "Not connected to Blender")
  else
    let command := command_of command_type params in
    try_except
      (data <- lift (dumps command) ;;
       _ <- lift (sendall_result env) ;;
       match receive_full_response (recvs env) [] with
       | None => ret None
       | Some received =>
           response_data <- lift received ;;
           response <- lift (loads response_data) ;;
           status <- lift (py_get interp_text response "status" PNone) ;;
           if eq_str status "error" then
             error_msg <- lift (py_get interp_text response "message"
                                  (PStr "Unknown error")) ;;
             ret (Some (PDict [("error", error_msg)]))
           else
             result <- lift (py_get interp_text response "result" (PDict [])) ;;
             ret (Some result)
       end)
      (fun e =>
         if is_socket_error e then
           Some (_ <- modify (set_sock None) ;;
                 raise (Exn PlainException
                          ("Connection to Blender lost: " +:+ exn_text e)))
         else if is_JSONDecodeError e then
           Some (raise (Exn PlainException
                          ("Invalid response from Blender: " +:+ exn_text e)))
         else if is_Exception e then
           Some (_ <- modify (set_sock None) ;;
                 raise (Exn PlainException
                          ("Communication error with Blender: " +:+ exn_text e)))
         else None).

End Client.
End server.

(** ** Registries built by decorators *)

(** The registry after a run of decorators, applied in order. *)
Definition register_all {World : Type}
    (decorated : list (string * option string * api.handler World))
    (_command_registry : gmap string (api.entry World))
  : gmap string (api.entry World) :=
  foldl (fun reg d => api.register_command d.1.1 d.1.2 d.2 reg)
        _command_registry decorated.

(** The same run on the registry in dict order. *)
Definition register_all_ordered {World : Type}
    (decorated : list (string * option string * api.handler World))
    (items : list (string * api.entry World))
  : list (string * api.entry World) :=
  foldl (fun items d => api.register_command_ordered d.1.1 d.1.2 d.2 items)
        items decorated.

(** The names under which the modules of the addon register their
    handlers, in the order the modules are imported. *)
Definition addon_command_names : list string :=
  ["get_scene_info"; "get_blender_object_info"; "get_selected_objects";
   "get_object_info"; "get_ifc_scene_overview"; "create_wall";
   "create_two_point_wall"; "create_polyline_walls"; "update_wall";
   "get_wall_properties"; "create_slab"; "create_circular_slab";
   "create_polyline_slab"; "update_slab"; "get_slab_properties";
   "get_window_partition_types"; "create_window"; "update_window";
   "get_window_properties"; "get_roof_types"; "create_roof"; "update_roof";
   "delete_roof"; "get_door_operation_types"; "create_door"; "update_door";
   "get_door_properties"; "get_opening_types"; "create_opening";
   "fill_opening"; "remove_opening"; "remove_filling";
   "get_element_openings"; "get_opening_info"; "create_surface_style";
   "create_pbr_style"; "apply_style_to_object"; "list_styles";
   "update_style"; "remove_style"; "create_mesh_ifc"; "list_ifc_entities";
   "generate_parametric_mesh"; "create_trimesh_ifc"; "validate_trimesh_code";
   "get_trimesh_examples"; "get_trimesh_help"; "copy_class";
   "reassign_class"; "delete_ifc_objects"; "list_commands"; "execute_code";
   "ping"; "execute_ifc_code"; "get_stairs_types"; "create_stairs";
   "update_stairs"; "delete_stairs"; "capture_blender_window_screenshot";
   "capture_blender_3dviewport_screenshot"; "get_viewport_description";
   "rotate_viewport"; "set_viewport_view"; "zoom_viewport";
   "execute_keyboard_shortcut"; "set_3d_cursor";
   "capture_multiview_viewport"; "project_objects_to_2d";
   "get_scene_summary"; "add_camera_to_scene"; "capture_render_with_passes"].

(** * Worked instances: a session with no host state, three handlers, and
    a JSON codec cut down to what the instances exchange *)

(** Error texts in the wording of CPython. *)
Definition sample_text (f : fault) : string :=
  match f with
  | Unhashable t => "unhashable type: '" +:+ t +:+ "'"
  | NotAMapping f t => f +:+ "() argument after ** must be a mapping, not " +:+ t
  | NoAttribute t a => "'" +:+ t +:+ "' object has no attribute '" +:+ a +:+ "'"
  end.

(** [def ping(): return "pong"] *)
Definition ping_handler : api.handler unit :=
  {| api.h_name := "blender_addon.api.code.ping";
     api.h_doc := Some "Simple connectivity test.";
     api.h_call := fun kv =>
       match kv with
       | [] => ret (PStr "pong")
       | _ => raise (Exn TypeError "ping() got an unexpected keyword argument")
       end |}.

(** A handler that fails: [raise RuntimeError("boom")]. *)
Definition boom : exn := Exn PlainException "boom".
Definition failing_handler : api.handler unit :=
  {| api.h_name := "handlers.fail"; api.h_doc := None;
     api.h_call := fun _ => raise boom |}.

(** A handler that asks the interpreter to exit: [raise SystemExit("bye")]. *)
Definition bye : exn := Exn ExitRequest "bye".
Definition quit_handler : api.handler unit :=
  {| api.h_name := "handlers.quit"; api.h_doc := None;
     api.h_call := fun _ => raise bye |}.

Definition sample_registry : gmap string (api.entry unit) :=
  register_all
    [("ping", Some "Simple ping test", ping_handler);
     ("fail", None, failing_handler);
     ("quit", None, quit_handler)] ∅.

(** [json.dumps] on the values of the instances (strings that need no
    escaping), with the default separators. *)
Definition quote : string := String (Ascii.ascii_of_byte Byte.x22) "".

Fixpoint dump (v : pyval) : string :=
  match v with
  | PNone => "null"
  | PBool true => "true"
  | PBool false => "false"
  | PInt n => pretty n
  | PStr s => quote +:+ s +:+ quote
  | PList items =>
      "[" +:+ String.concat ", " (map dump items) +:+ "]"
  | PDict kv =>
      "{" +:+ String.concat ", "
                (map (fun item => quote +:+ item.1 +:+ quote +:+ ": " +:+ dump item.2) kv)
          +:+ "}"
  end.

Definition sample_dumps (v : pyval) : outcome bytes :=
  Return (String.list_byte_of_string (dump v)).

(** [json.loads] on the messages of the instances: a message is decoded to
    the value it is the serialisation of; bytes that are not UTF-8 raise
    [UnicodeDecodeError]; anything else is not, or not yet, a JSON value. *)
Definition exchanged : list pyval :=
  [PNone; PList []; PDict [];
   PDict [("type", PStr "ping"); ("params", PDict [])];
   PDict [("type", PStr "fail"); ("params", PDict [])];
   success_envelope (PStr "pong");
   error_envelope "boom";
   error_envelope "Unknown command type: "].

Definition sample_loads (b : bytes) : outcome pyval :=
  if existsb (Byte.eqb Byte.xff) b
  then Raise (Exn UnicodeDecodeError "invalid start byte")
  else
    match find (fun v => String.eqb (dump v) (String.string_of_list_byte b)) exchanged with
    | Some v => Return v
    | None => Raise (Exn JSONDecodeError "Expecting value")
    end.

Definition utf8 (s : string) : bytes := String.list_byte_of_string s.

(** A client writes the ping command in two pieces and then hangs up: the
    handler answers once, after the second piece, and closes. *)
Definition ping_bytes : bytes :=
  match sample_dumps (PDict [("type", PStr "ping"); ("params", PDict [])]) with
  | Return b => b
  | Raise _ => []
  end.

Definition prompt_host : @core.wait_env unit :=
  {| core.start_time := 1000; core.lag := fun _ => 0%nat; core.fired := Some (1025, tt) |}.

Definition absent_host : @core.wait_env unit :=
  {| core.start_time := 1000; core.lag := fun _ => 0%nat; core.fired := None |}.

Definition late_host : @core.wait_env unit :=
  {| core.start_time := 1000; core.lag := fun _ => 0%nat; core.fired := Some (31005, tt) |}.

(** A host that runs the job 29.998 s after the start, seen through sleeps
    that each last 1 ms too long. *)
Definition jittery_host : @core.wait_env unit :=
  {| core.start_time := 1000; core.lag := fun _ => 1%nat; core.fired := Some (30998, tt) |}.

Definition received (data : bytes) : @core.round unit :=
  {| core.r_running := true; core.r_recv := Return data; core.r_wait := prompt_host;
     core.r_sendall := Return tt; core.r_sendall_error := Return tt |}.

Definition ping_session : list (@core.round unit) :=
  [received (take 9 ping_bytes); received (drop 9 ping_bytes); received []].

Definition ping_entry : api.entry unit :=
  {| api.e_handler := ping_handler; api.e_description := "Simple ping test" |}.



Definition ping_command : pyval := PDict [("type", PStr "ping"); ("params", PDict [])].

Definition holding (b : bytes) : core.connection :=
  core.set_buffer b (core.new_connection []).

Definition bound_elsewhere : core.start_env :=
  {| core.socket_result := Return 3%nat;
     core.setsockopt_result := Return tt;
     core.bind_result := Raise (Exn OSError "[Errno 98] Address already in use");
     core.listen_result := Return tt;
     core.thread_handle := 1%nat;
     core.thread_start_result := Return tt |}.

Definition fresh_process : core.process :=
  {| core.self := core.__init__ "localhost" 9876; core.open_sockets := ∅ |}.

Definition cached : server.BlenderConnection :=
  {| server.host := "localhost"; server.port := 9876; server.sock := Some 3%nat |}.

Definition broken_pipe : exn := Exn OSError "[Errno 32] Broken pipe".
Definition timed_out : exn := Exn SocketTimeout "timed out".

Definition send_fails : server.call_env :=
  {| server.socket_result := Return 4%nat; server.connect_result := Return tt;
     server.sendall_result := Raise broken_pipe; server.recvs := [] |}.

Definition answers (recvs : list (outcome bytes)) : server.call_env :=
  {| server.socket_result := Return 4%nat; server.connect_result := Return tt;
     server.sendall_result := Return tt; server.recvs := recvs |}.

(** ** Vocabulary of the further properties *)

(** A server that is not running, holds no socket and has no thread. *)
Definition at_rest (p : core.process) : Prop :=
  core.running (core.self p) = false
  /\ core.socket (core.self p) = None
  /\ core.server_thread (core.self p) = None.

(** Every call [start] makes succeeds, the first with socket [fd]. *)
Definition succeeds (env : core.start_env) (fd : nat) : Prop :=
  core.socket_result env = Return fd
  /\ core.setsockopt_result env = Return tt
  /\ core.bind_result env = Return tt
  /\ core.listen_result env = Return tt
  /\ core.thread_start_result env = Return tt.

(** None of the calls [start] makes is cut short by an exit request. *)
Definition undisturbed (env : core.start_env) : Prop :=
  (forall e, core.socket_result env = Raise e -> is_Exception e = true)
  /\ (forall e, core.setsockopt_result env = Raise e -> is_Exception e = true)
  /\ (forall e, core.bind_result env = Raise e -> is_Exception e = true)
  /\ (forall e, core.listen_result env = Raise e -> is_Exception e = true)
  /\ (forall e, core.thread_start_result env = Raise e -> is_Exception e = true).

(** An answer that is not an exit request. *)
Definition calm {A} (o : outcome A) : bool :=
  match o with
  | Return _ => true
  | Raise e => is_Exception e
  end.

(** A turn of the accept loop that no exit request cuts short, taken while
    the server is running. *)
Definition calm_round (r : core.accept_round) : bool :=
  core.a_running r && calm (core.a_settimeout r) && calm (core.a_accept r)
  && calm (core.a_client_settimeout r) && calm (core.a_thread_start r).

(** The client a turn accepts, if it accepts one. *)
Definition taken (r : core.accept_round) : option nat :=
  match core.a_settimeout r, core.a_accept r with
  | Return _, Return client => Some client
  | _, _ => None
  end.

(** The client a turn starts a handler thread for, if it does. *)
Definition served (r : core.accept_round) : option nat :=
  match core.a_settimeout r, core.a_accept r,
        core.a_client_settimeout r, core.a_thread_start r with
  | Return _, Return client, Return _, Return _ => Some client
  | _, _, _, _ => None
  end.

(** The user types another port into the panel. *)
Definition with_port (port : Z) (b : ui.blender) : ui.blender :=
  {| ui.core_state := ui.core_state b; ui.blendermcp_port := port;
     ui.blendermcp_server_running := ui.blendermcp_server_running b |}.

(** Blender before the server was ever started. *)
Definition never_started (b : ui.blender) : Prop :=
  core.server_instance (ui.core_state b) = None.

Section HandlerVocabulary.
Context {World : Type}.
Variable interp_text : fault -> string.
Variable loads : bytes -> outcome pyval.
Variable dumps : pyval -> outcome bytes.

(** The response the hand-off of a turn gives to [command]. *)
Definition response_in (reg : gmap string (api.entry World)) (r : @core.round World)
    (command : pyval) : pyval :=
  (core.execute_command interp_text reg command (core.r_wait r) []).1.

(** A turn that finds the server running, receives one whole message and
    writes the answer: the command and the bytes written. *)
Definition exchange (reg : gmap string (api.entry World)) (r : @core.round World)
  : option (pyval * bytes) :=
  if core.r_running r then
    match core.r_recv r, core.r_sendall r with
    | Return (b :: data), Return _ =>
        match loads (b :: data) with
        | Return command =>
            match dumps (response_in reg r command) with
            | Return out => Some (command, out)
            | Raise _ => None
            end
        | Raise _ => None
        end
    | _, _ => None
    end
  else None.

(** Turns that find the server running and receive bytes which, joined to
    what is buffered, are not yet a JSON value. *)
Fixpoint stalled (rounds : list (@core.round World)) (buffer : bytes) : bool :=
  match rounds with
  | [] => true
  | r :: rest =>
      core.r_running r
      && match core.r_recv r with
         | Return (b :: data) =>
             match loads (buffer ++ b :: data)%list with
             | Raise e => is_JSONDecodeError e && stalled rest (buffer ++ b :: data)%list
             | Return _ => false
             end
         | _ => false
         end
  end.

(** The bytes the turns receive, joined. *)
Definition delivered (rounds : list (@core.round World)) : bytes :=
  concat (map (fun r => match core.r_recv r with
                        | Return data => data
                        | Raise _ => []
                        end) rounds).

End HandlerVocabulary.

(** ** Further instances *)

(** A registry in which another handler took the name of the ping. *)
Definition shadowed_registry : gmap string (api.entry unit) :=
  register_all [("ping", None, failing_handler)] ∅.

(** A host that never runs the job, seen through sleeps that each last
    5 ms too long. *)
Definition sluggish_host : @core.wait_env unit :=
  {| core.start_time := 1000; core.lag := fun _ => 5%nat; core.fired := None |}.

(** A host that had run the job before the submitter looked. *)
Definition eager_host : @core.wait_env unit :=
  {| core.start_time := 1000; core.lag := fun _ => 5%nat; core.fired := Some (990, tt) |}.

(** An operating system that grants everything [start] asks for. *)
Definition port_free : core.start_env :=
  {| core.socket_result := Return 3%nat;
     core.setsockopt_result := Return tt;
     core.bind_result := Return tt;
     core.listen_result := Return tt;
     core.thread_handle := 1%nat;
     core.thread_start_result := Return tt |}.

(** One that has no thread left to give. *)
Definition no_thread_left : core.start_env :=
  {| core.socket_result := Return 3%nat;
     core.setsockopt_result := Return tt;
     core.bind_result := Return tt;
     core.listen_result := Return tt;
     core.thread_handle := 1%nat;
     core.thread_start_result :=
       Raise (Exn PlainException "can't start new thread") |}.

(** Turns of the accept loop: nobody calls, a client arrives, the accept
    fails, a client arrives but its thread does not start, the server was
    stopped. *)
Definition nobody_calls : core.accept_round :=
  {| core.a_running := true; core.a_settimeout := Return tt;
     core.a_accept := Raise (Exn SocketTimeout "timed out");
     core.a_client_settimeout := Return tt; core.a_thread_start := Return tt |}.

Definition arrival (client : nat) : core.accept_round :=
  {| core.a_running := true; core.a_settimeout := Return tt;
     core.a_accept := Return client;
     core.a_client_settimeout := Return tt; core.a_thread_start := Return tt |}.

Definition accept_fails : core.accept_round :=
  {| core.a_running := true; core.a_settimeout := Return tt;
     core.a_accept := Raise (Exn OSError "[Errno 24] Too many open files");
     core.a_client_settimeout := Return tt; core.a_thread_start := Return tt |}.

Definition arrival_unserved (client : nat) : core.accept_round :=
  {| core.a_running := true; core.a_settimeout := Return tt;
     core.a_accept := Return client;
     core.a_client_settimeout := Return tt;
     core.a_thread_start := Raise (Exn PlainException "can't start new thread") |}.

Definition stopped_meanwhile : core.accept_round :=
  {| core.a_running := false;
     core.a_settimeout :=
       Raise (Exn AttributeError "'NoneType' object has no attribute 'settimeout'");
     core.a_accept := Return 9%nat;
     core.a_client_settimeout := Return tt; core.a_thread_start := Return tt |}.

(** Blender with the addon enabled and the panel untouched. *)
Definition fresh_blender : ui.blender :=
  {| ui.core_state := {| core.server_instance := None; core.sockets := ∅ |};
     ui.blendermcp_port := 9876;
     ui.blendermcp_server_running := false |}.

(** The failing command on the wire. *)
Definition fail_bytes : bytes :=
  utf8 (dump (PDict [("type", PStr "fail"); ("params", PDict [])])).

(** A turn in which the client has hung up by the time the answer is
    written. *)
Definition unanswerable (data : bytes) : @core.round unit :=
  {| core.r_running := true; core.r_recv := Return data; core.r_wait := prompt_host;
     core.r_sendall := Raise broken_pipe; core.r_sendall_error := Raise broken_pipe |}.

(** A client that has not connected yet, and a Blender whose addon does not
    listen. *)
Definition unconnected : server.BlenderConnection :=
  {| server.host := "localhost"; server.port := 9876; server.sock := None |}.

Definition addon_down : server.call_env :=
  {| server.socket_result := Return 4%nat;
     server.connect_result := Raise (Exn ConnectionError "[Errno 111] Connection refused");
     server.sendall_result := Return tt; server.recvs := [] |}.

(** [int] on the port numbers of the instances: strings of decimal digits
    are read, anything else is refused with a [ValueError]. *)
Definition digit_value (a : Ascii.ascii) : option Z :=
  let n := Z.of_N (Ascii.N_of_ascii a) in
  if (48 <=? n) && (n <=? 57) then Some (n - 48) else None.

Fixpoint digits (s : string) (acc : Z) : option Z :=
  match s with
  | EmptyString => Some acc
  | String a rest =>
      match digit_value a with
      | Some d => digits rest (10 * acc + d)
      | None => None
      end
  end.

Definition sample_int (s : string) : outcome Z :=
  match s, digits s 0 with
  | String _ _, Some n => Return n
  | _, _ => Raise (Exn PlainException
                     ("invalid literal for int() with base 10: '" +:+ s +:+ "'"))
  end.

Definition no_variables : server.environ :=
  {| server.BLENDER_MCP_PORT := None; server.BLENDER_MCP_HOST := None |}.

Definition other_variables : server.environ :=
  {| server.BLENDER_MCP_PORT := Some "9999";
     server.BLENDER_MCP_HOST := Some "blender.local" |}.

(** A registry that offers the greeting under a second name, and the codec
    extended with that command. *)
Definition greeting_registry : gmap string (api.entry unit) :=
  register_all [("hello", None, ping_handler)] ∅.

Definition greeting_loads (b : bytes) : outcome pyval :=
  if String.eqb (dump (server.command_of "hello" (PDict [])))
                (String.string_of_list_byte b)
  then Return (server.command_of "hello" (PDict []))
  else sample_loads b.

Definition hello_bytes : bytes := utf8 (dump (server.command_of "hello" (PDict []))).
Definition pong_bytes : bytes := utf8 (dump (success_envelope (PStr "pong"))).

(** The turn of the handler that receives the greeting, the host having
    the main thread free. *)
Definition greeted : @core.round unit :=
  {| core.r_running := true; core.r_recv := Return hello_bytes;
     core.r_wait := eager_host;
     core.r_sendall := Return tt; core.r_sendall_error := Return tt |}.

(** * Properties *)

Section DispatchProperties.
Context {World : Type}.
Variable interp_text : fault -> string.

Implicit Types (reg : gmap string (api.entry World)) (h : api.handler World).
Implicit Types (w : World) (name : string) (e : exn).

Lemma get_command_register reg name d h :
  api.get_command (api.register_command name d h reg) name = Some h.
Proof.
  unfold api.get_command, api.register_command.
  by rewrite lookup_insert_eq.
Qed.

Lemma get_command_register_ne reg name name' d h :
  name' ≠ name ->
  api.get_command (api.register_command name' d h reg) name
  = api.get_command reg name.
Proof.
  intros Hne. unfold api.get_command, api.register_command.
  by rewrite lookup_insert_ne.
Qed.

Lemma get_command_register_all decorated reg name :
  name ∉ (map (fun d => d.1.1) decorated) ->
  api.get_command (register_all decorated reg) name = api.get_command reg name.
Proof.
  revert reg. induction decorated as [|[[n d] h] rest IH]; intros reg Hnot.
  - reflexivity.
  - cbn in Hnot. apply not_elem_of_cons in Hnot as [Hne Hrest].
    unfold register_all in *. cbn. rewrite IH by exact Hrest.
    apply get_command_register_ne. congruence.
Qed.

Lemma get_command_None reg name :
  reg !! name = None <-> api.get_command reg name = None.
Proof.
  unfold api.get_command. destruct (reg !! name); split; congruence.
Qed.

(** The dispatcher, case by case. *)
Lemma execute_command_unknown reg name params w :
  api.get_command reg name = None ->
  commands.execute_command interp_text reg (PStr name) params w
  = (Return (error_envelope ("Unknown command type: " +:+ name)), w).
Proof.
  intros Hget.
  unfold commands.execute_command, try_except_Exception, try_except, bind, lift, ret.
  cbn. by rewrite Hget.
Qed.

Lemma execute_command_found reg name h kv w :
  api.get_command reg name = Some h ->
  commands.execute_command interp_text reg (PStr name) (PDict kv) w
  = match api.h_call h kv w with
    | (Return r, w') => (Return (success_envelope r), w')
    | (Raise e, w') =>
        if is_Exception e then (Return (error_envelope (exn_text e)), w')
        else (Raise e, w')
    end.
Proof.
  intros Hget.
  unfold commands.execute_command, try_except_Exception, try_except, bind, lift, ret.
  cbn. rewrite Hget. cbn.
  destruct (api.h_call h kv w) as [[r|e] w']; [reflexivity|].
  by destruct (is_Exception e).
Qed.

(** C1.  For every command name registered in the registry and every
    parameter mapping its handler accepts (the handler, called with the
    parameters bound by name, returns [r]), the dispatcher returns exactly
    the success envelope around [r]; the host is left as the handler left
    it. *)
Theorem registered_command_returns_success reg name (entry : api.entry World)
    (params : pydict) (r : pyval) w w' :
  reg !! name = Some entry ->
  api.h_call (api.e_handler entry) params w = (Return r, w') ->
  commands.execute_command interp_text reg (PStr name) (PDict params) w
  = (Return (PDict [("status", PStr "success"); ("result", r)]), w').
Proof.
  intros Hreg Hcall.
  rewrite (execute_command_found reg name (api.e_handler entry)).
  - by rewrite Hcall.
  - unfold api.get_command. by rewrite Hreg.
Qed.

(** C2.  For every command name that is not in the registry, the
    dispatcher returns exactly the error envelope whose message is
    "Unknown command type: " followed by the submitted name. *)
Theorem unregistered_command_returns_unknown reg name (params : pyval) w :
  reg !! name = None ->
  commands.execute_command interp_text reg (PStr name) params w
  = (Return (PDict [("status", PStr "error");
                    ("message", PStr ("Unknown command type: " +:+ name))]), w).
Proof.
  intros Hreg. apply execute_command_unknown. by apply get_command_None.
Qed.

End DispatchProperties.

Section RegistryProperties.
Context {World : Type}.

Implicit Types (reg : gmap string (api.entry World)) (h : api.handler World).

(** C9.  Registering [h1] and then [h2] under one name overwrites the
    first entry (the registry is the one a single registration of [h2]
    gives), and the lookup of the name then returns [h2]; a name that no
    decorator of the run has registered is looked up as absent. *)
Theorem last_registration_wins reg (name : string) (d1 d2 : option string) h1 h2
    (decorated : list (string * option string * api.handler World)) :
  api.get_command
    (api.register_command name d2 h2 (api.register_command name d1 h1 reg)) name
  = Some h2
  /\ api.register_command name d2 h2 (api.register_command name d1 h1 reg)
     = api.register_command name d2 h2 reg
  /\ (name ∉ map (fun d => d.1.1) decorated ->
      api.get_command (register_all decorated ∅) name = None).
Proof.
  split; [|split].
  - apply get_command_register.
  - unfold api.register_command. by rewrite insert_insert_eq.
  - intros Hnot. rewrite get_command_register_all by exact Hnot.
    unfold api.get_command. by rewrite lookup_empty.
Qed.

(** The addon registers no handler under the empty name. *)
Lemma addon_registers_no_empty_name
    (decorated : list (string * option string * api.handler World)) :
  map (fun d => d.1.1) decorated = addon_command_names ->
  register_all decorated ∅ !! "" = None.
Proof.
  intros Hnames. apply get_command_None.
  rewrite get_command_register_all.
  - unfold api.get_command. by rewrite lookup_empty.
  - rewrite Hnames. apply (bool_decide_unpack _). vm_compute. reflexivity.
Qed.

End RegistryProperties.

Section ServerDispatchProperties.
Context {World : Type}.
Variable interp_text : fault -> string.

Implicit Types (reg : gmap string (api.entry World)) (h : api.handler World).
Implicit Types (w : World) (name : string) (e : exn).

(** Whatever leaves the dispatcher as an exception is not an [Exception]. *)
Lemma execute_command_raises reg (command_type params : pyval) w e w' :
  commands.execute_command interp_text reg command_type params w = (Raise e, w') ->
  is_Exception e = false.
Proof.
  unfold commands.execute_command, try_except_Exception, try_except.
  match goal with |- context [bind ?m ?k w] => destruct (bind m k w) as [[r|e0] w0] end.
  - discriminate.
  - destruct (is_Exception e0) eqn:He0.
    + unfold ret. discriminate.
    + intros [= <- <-]. exact He0.
Qed.

(** On a dict, [_execute_command_internal] answers the ping itself and
    passes everything else to the dispatcher, with the two defaults. *)
Lemma _execute_command_internal_dict reg (kv : pydict) w :
  core._execute_command_internal interp_text reg (PDict kv) w
  = if eq_str (default (PStr "") (dict_lookup "type" kv)) "ping"
    then (Return (success_envelope (PStr "pong")), w)
    else commands.execute_command interp_text reg
           (default (PStr "") (dict_lookup "type" kv))
           (default (PDict []) (dict_lookup "params" kv)) w.
Proof.
  unfold core._execute_command_internal, try_except_Exception, try_except.
  unfold bind at 1. unfold lift at 1. cbn [py_get].
  unfold bind at 1. unfold lift at 1. cbn [py_get].
  destruct (eq_str _ "ping"); [reflexivity|].
  destruct (commands.execute_command _ _ _ _ w) as [[r|e] w'] eqn:Hexec;
    [reflexivity|].
  by rewrite (execute_command_raises _ _ _ _ _ _ Hexec).
Qed.


(** The job always completes: whatever the command, the flag ends set. *)
Lemma command_executor_done reg (command : pyval) (c : core.container) w :
  core.done (core.command_executor interp_text reg command c w).1 = true.
Proof.
  unfold core.command_executor.
  by destruct (try_except_Exception _ _ w) as [[r|e] w'].
Qed.

Lemma command_executor_result reg (command : pyval) (c : core.container) w :
  core.command_executor interp_text reg command c w
  = match core._execute_command_internal interp_text reg command w with
    | (Return r, w') => ({| core.result := r; core.done := true |}, w')
    | (Raise e, w') =>
        if is_Exception e
        then ({| core.result := error_envelope (exn_text e); core.done := true |}, w')
        else ({| core.result := core.result c; core.done := true |}, w')
    end.
Proof.
  unfold core.command_executor, try_except_Exception, try_except, bind, ret.
  destruct (core._execute_command_internal _ _ _ w) as [[r|e] w']; [reflexivity|].
  by destruct (is_Exception e).
Qed.

(** The server answers a ping itself, registered or not. *)
Lemma ping_answered_by_server reg (kv : pydict) w :
  dict_lookup "type" kv = Some (PStr "ping") ->
  core._execute_command_internal interp_text reg (PDict kv) w
  = (Return (success_envelope (PStr "pong")), w).
Proof.
  intros Htype. by rewrite _execute_command_internal_dict, Htype.
Qed.

(** Any other command goes through the server to the dispatcher as it
    is. *)
Lemma command_passed_to_dispatcher reg name (params : pyval) w :
  name ≠ "ping" ->
  core._execute_command_internal interp_text reg
    (PDict [("type", PStr name); ("params", params)]) w
  = commands.execute_command interp_text reg (PStr name) params w.
Proof.
  intros Hping. rewrite _execute_command_internal_dict.
  cbn [dict_lookup String.eqb Ascii.eqb Bool.eqb default from_option id eq_str].
  destruct (String.eqb name "ping") eqn:Heq; [|reflexivity].
  apply String.eqb_eq in Heq. contradiction.
Qed.


(** The dispatcher answers with a well-formed envelope unless the handler
    it calls raises an exit request. *)
Lemma execute_command_well_formed reg (command_type params : pyval) w :
  (forall name h kv e w',
      command_type = PStr name ->
      api.get_command reg name = Some h ->
      (if is_None params then PDict [] else params) = PDict kv ->
      api.h_call h kv w = (Raise e, w') -> is_Exception e = true) ->
  exists v w',
    commands.execute_command interp_text reg command_type params w = (Return v, w')
    /\ well_formed_envelope v.
Proof.
  intros Hhandler.
  unfold commands.execute_command, try_except_Exception, try_except, bind, lift, ret.
  destruct (commands.lookup_handler interp_text reg command_type) as [[h|]|e0] eqn:Hlook.
  - destruct command_type; try discriminate. cbn in Hlook. injection Hlook as Hget.
    unfold commands.call_kwargs.
    destruct (if is_None params then PDict [] else params) eqn:Hparams;
      try (unfold raise; cbn; eexists _, _; split; [reflexivity|right; by eexists]).
    destruct (api.h_call h kv w) as [[r|e] w'] eqn:Hcall.
    + eexists _, _. split; [reflexivity|]. left. by eexists.
    + rewrite (Hhandler _ _ _ _ _ eq_refl Hget eq_refl Hcall).
      eexists _, _. split; [reflexivity|]. right. by eexists.
  - eexists _, _. split; [reflexivity|]. right. by eexists.
  - destruct command_type; try discriminate; cbn in Hlook; injection Hlook as <-;
      cbn; eexists _, _; (split; [reflexivity|right; by eexists]).
Qed.




End ServerDispatchProperties.

Section SchedulerProperties.
Context {World : Type}.
Variable interp_text : fault -> string.

Implicit Types (reg : gmap string (api.entry World)).
Implicit Types (env : @core.wait_env World) (command : pyval).

(** One turn of the polling loop. *)
Lemma wait_step reg command env (k : nat) (now : Z) :
  core.wait interp_text reg command env k now
  = if core.done (core.container_at interp_text reg command env now)
    then core.result (core.container_at interp_text reg command env now)
    else
      if now + core.sleep_interval + Z.of_nat (core.lag env k) - core.start_time env
         >? core.timeout
      then core.timeout_envelope
      else core.wait interp_text reg command env (S k)
             (now + core.sleep_interval + Z.of_nat (core.lag env k)).
Proof.
  rewrite core.wait_equation_1.
  destruct (core.done _); cbn; [reflexivity|].
  by destruct (_ >? _).
Qed.


Lemma container_at_fired reg command env (now t : Z) (w : World) :
  core.fired env = Some (t, w) -> t <= now ->
  core.container_at interp_text reg command env now
  = (core.command_executor interp_text reg command core.new_container w).1.
Proof.
  intros Hfired Hle. unfold core.container_at. rewrite Hfired.
  by destruct (Z.leb_spec t now); [|lia].
Qed.

Lemma container_at_pending reg command env (now : Z) :
  match core.fired env with Some (t, _) => now < t | None => True end ->
  core.container_at interp_text reg command env now = core.new_container.
Proof.
  unfold core.container_at. destruct (core.fired env) as [[t w]|]; [|done].
  intros Hlt. by destruct (Z.leb_spec t now); [lia|].
Qed.

(** The wait always ends with the job's stored result or the timeout
    envelope, however long the sleeps last. *)
Lemma wait_result_or_timeout reg command env (k : nat) (now : Z) :
  core.wait interp_text reg command env k now = core.timeout_envelope
  \/ exists t w,
       core.fired env = Some (t, w)
       /\ core.wait interp_text reg command env k now
          = core.result (core.command_executor interp_text reg command core.new_container w).1.
Proof.
  funelim (core.wait interp_text reg command env k now).
  - right. unfold core.container_at in *.
    destruct (core.fired env) as [[t w]|]; [|discriminate].
    destruct (t <=? now); [|discriminate]. by exists t, w.
  - by left.
  - assumption.
Qed.

(** A flag set later than 30 s after the start, or never, is not seen by
    any poll, however long the sleeps last. *)
Lemma wait_never_seen reg command env (k : nat) (now : Z) :
  match core.fired env with
  | Some (t, _) => core.start_time env + 30000 < t
  | None => True
  end ->
  now <= core.start_time env + 30000 ->
  core.wait interp_text reg command env k now = core.timeout_envelope.
Proof.
  intros Hlate. funelim (core.wait interp_text reg command env k now); intros Hnow.
  - rewrite container_at_pending in Heq; [discriminate|].
    destruct (core.fired env) as [[t w]|]; [lia|done].
  - reflexivity.
  - match goal with
    | IH : _ -> _ -> core.wait _ _ _ _ _ _ = _ |- _ => apply IH; [exact Hlate|]
    end.
    match goal with
    | Hearly : (?a >? ?b) = false |- _ =>
        assert (a <= b) by (apply Z.ltb_ge; rewrite <- Z.gtb_ltb; exact Hearly)
    end.
    unfold core.sleep_interval, core.timeout in *. lia.
Qed.

(** The instants of the tests are those of the clock readings: each lies
    at least 10 ms after the one before. *)
Lemma poll_time_S env (k : nat) :
  core.poll_time env (S k)
  = core.poll_time env k + core.sleep_interval + Z.of_nat (core.lag env k).
Proof. reflexivity. Qed.

Lemma poll_time_mono env (k n : nat) :
  core.poll_time env k + 10 * Z.of_nat n <= core.poll_time env (k + n).
Proof.
  induction n as [|n IH]; [rewrite Nat.add_0_r; lia|].
  replace (k + S n)%nat with (S (k + n)) by lia.
  rewrite poll_time_S. unfold core.sleep_interval. lia.
Qed.

Lemma poll_time_exact env (k : nat) :
  (forall j, core.lag env j = 0%nat) ->
  core.poll_time env k = core.start_time env + 10 * Z.of_nat k.
Proof.
  intros Hlag. induction k as [|k IH]; [cbn; lia|].
  rewrite poll_time_S, IH, Hlag. unfold core.sleep_interval. lia.
Qed.

(** A flag that some test made before the 30 s are over finds set gives
    the stored result. *)
Lemma wait_seen reg command env (t : Z) (w : World) (n k : nat) :
  core.fired env = Some (t, w) ->
  t <= core.poll_time env (k + n) ->
  core.poll_time env (k + n) < core.start_time env + 30000 ->
  core.wait interp_text reg command env k (core.poll_time env k)
  = core.result (core.command_executor interp_text reg command core.new_container w).1.
Proof.
  intros Hfired. revert k. induction n as [|n IH]; intros k Hseen Hearly.
  - rewrite Nat.add_0_r in Hseen. rewrite wait_step.
    rewrite (container_at_fired _ _ _ _ t w Hfired Hseen).
    by rewrite command_executor_done.
  - rewrite wait_step.
    destruct (Z.le_gt_cases t (core.poll_time env k)) as [Hle|Hgt].
    { rewrite (container_at_fired _ _ _ _ t w Hfired Hle).
      by rewrite command_executor_done. }
    rewrite container_at_pending by (rewrite Hfired; lia).
    cbn [core.done core.new_container]. rewrite <- poll_time_S.
    pose proof (poll_time_mono env (S k) n) as Hmono.
    replace (S k + n)%nat with (k + S n)%nat in Hmono by lia.
    unfold core.timeout.
    destruct (Z.gtb_spec (core.poll_time env (S k) - core.start_time env) 30000);
      [lia|].
    apply IH; by replace (S k + n)%nat with (k + S n)%nat by lia.
Qed.

(** A flag set after one test, when the next one would come after the 30 s,
    is not seen. *)
Lemma wait_missed reg command env (t : Z) (w : World) (k n j : nat) :
  core.fired env = Some (t, w) ->
  core.poll_time env k < t ->
  core.start_time env + 30000 < core.poll_time env (S k) ->
  (j + n = k)%nat ->
  core.wait interp_text reg command env j (core.poll_time env j)
  = core.timeout_envelope.
Proof.
  intros Hfired Hunset Hlate. revert j.
  induction n as [|n IH]; intros j Hj.
  - rewrite Nat.add_0_r in Hj. subst j. rewrite wait_step.
    rewrite container_at_pending by (rewrite Hfired; lia).
    cbn [core.done core.new_container]. rewrite <- poll_time_S. unfold core.timeout.
    by destruct (Z.gtb_spec (core.poll_time env (S k) - core.start_time env) 30000);
      [|lia].
  - rewrite wait_step.
    pose proof (poll_time_mono env j (S n)) as Hmono. rewrite Hj in Hmono.
    rewrite container_at_pending by (rewrite Hfired; lia).
    cbn [core.done core.new_container]. rewrite <- poll_time_S.
    destruct (_ >? _); [reflexivity|].
    apply IH. lia.
Qed.

(** One turn of the logged loop. *)
Lemma wait_log_step reg command env (k : nat) (now : Z) :
  core.wait_log interp_text reg command env k now
  = if core.done (core.container_at interp_text reg command env now)
    then (core.result (core.container_at interp_text reg command env now), k, now)
    else
      if now + core.sleep_interval + Z.of_nat (core.lag env k) - core.start_time env
         >? core.timeout
      then (core.timeout_envelope, S k,
            now + core.sleep_interval + Z.of_nat (core.lag env k))
      else core.wait_log interp_text reg command env (S k)
             (now + core.sleep_interval + Z.of_nat (core.lag env k)).
Proof.
  rewrite core.wait_log_equation_1.
  destruct (core.done _); cbn; [reflexivity|].
  by destruct (_ >? _).
Qed.

(** The submitter returns at the instant of a test, or of the reading that
    shows the 30 s over, after as many sleeps as led there. *)
Lemma wait_log_poll reg command env (k : nat) :
  (core.wait_log interp_text reg command env k (core.poll_time env k)).1.1
  = core.wait interp_text reg command env k (core.poll_time env k)
  /\ (core.wait_log interp_text reg command env k (core.poll_time env k)).2
     = core.poll_time env
         (core.wait_log interp_text reg command env k (core.poll_time env k)).1.2.
Proof.
  remember (Z.to_nat (core.start_time env + 30001 - core.poll_time env k)) as n eqn:Hn.
  assert (Hmeasure : (Z.to_nat (core.start_time env + 30001 - core.poll_time env k)
                      <= n)%nat) by lia.
  clear Hn. revert k Hmeasure.
  induction n as [|n IH]; intros k Hmeasure;
    rewrite wait_log_step, wait_step;
    (destruct (core.done _); [done|]);
    rewrite <- poll_time_S; unfold core.timeout;
    (destruct (Z.gtb_spec (core.poll_time env (S k) - core.start_time env) 30000)
      as [Hlate|Hearly]; [done|]).
  - rewrite poll_time_S in Hearly. unfold core.sleep_interval in Hearly. lia.
  - apply IH. rewrite poll_time_S. unfold core.sleep_interval. lia.
Qed.

(** C4, as the code has it.  The job stays registered with the host's
    timers.  The submitter tests the flag, sleeps for at least 10 ms, and
    tests again unless more than 30 s have passed since the start; it
    returns at the instant of its last clock reading.  A flag that a test
    made less than 30 s after the start finds set gives the stored result;
    so does, when every sleep lasts exactly 10 ms, a flag set within
    29.99 s.  A flag set later than 30 s after the start, or never, gives
    exactly the timeout envelope, whatever the job stores when it runs.  A
    flag set within the 30 s, but after a test whose successor comes later
    than 30 s after the start, is missed: the submitter returns the
    timeout envelope. *)
Theorem wait_contract reg command env (timers : list pyval) :
  (core.execute_command interp_text reg command env timers).2
  = (timers ++ [command])%list
  /\ (forall k, core.poll_time env k + 10 <= core.poll_time env (S k))
  /\ ((core.wait_log interp_text reg command env 0 (core.start_time env)).1.1
      = (core.execute_command interp_text reg command env timers).1
      /\ (core.wait_log interp_text reg command env 0 (core.start_time env)).2
         = core.poll_time env
             (core.wait_log interp_text reg command env 0 (core.start_time env)).1.2)
  /\ (forall (k : nat) (t : Z) (w : World),
        core.fired env = Some (t, w) ->
        t <= core.poll_time env k ->
        core.poll_time env k < core.start_time env + 30000 ->
        (core.execute_command interp_text reg command env timers).1
        = core.result
            (core.command_executor interp_text reg command core.new_container w).1)
  /\ ((forall k, core.lag env k = 0%nat) ->
      forall (t : Z) (w : World),
        core.fired env = Some (t, w) ->
        t <= core.start_time env + 29990 ->
        (core.execute_command interp_text reg command env timers).1
        = core.result
            (core.command_executor interp_text reg command core.new_container w).1)
  /\ (match core.fired env with
      | Some (t, _) => core.start_time env + 30000 < t
      | None => True
      end ->
      (core.execute_command interp_text reg command env timers).1
      = PDict [("status", PStr "error");
               ("message", PStr "Command execution timed out")])
  /\ (forall (k : nat) (t : Z) (w : World),
        core.fired env = Some (t, w) ->
        core.poll_time env k < t ->
        core.start_time env + 30000 < core.poll_time env (S k) ->
        (core.execute_command interp_text reg command env timers).1
        = PDict [("status", PStr "error");
                 ("message", PStr "Command execution timed out")]).
Proof.
  split; [reflexivity|].
  split; [intros k; rewrite poll_time_S; unfold core.sleep_interval; lia|].
  split; [exact (wait_log_poll reg command env 0)|].
  split; [|split; [|split]].
  - intros k t w Hfired Hseen Hearly.
    exact (wait_seen reg command env t w k 0 Hfired Hseen Hearly).
  - intros Hlag t w Hfired Hle.
    pose proof (Z.div_mod (t - core.start_time env + 9) 10 ltac:(lia)) as Hdiv.
    pose proof (Z.mod_pos_bound (t - core.start_time env + 9) 10 ltac:(lia)) as Hmod.
    apply (wait_seen reg command env t w
             (Z.to_nat ((t - core.start_time env + 9) / 10)) 0 Hfired);
      cbn [Nat.add]; rewrite (poll_time_exact env _ Hlag); lia.
  - intros Hlate. unfold core.execute_command. cbn [fst].
    apply wait_never_seen; [exact Hlate|lia].
  - intros k t w Hfired Hunset Hlate.
    exact (wait_missed reg command env t w k k 0 Hfired Hunset Hlate eq_refl).
Qed.

End SchedulerProperties.

Section ConnectionProperties.
Context {World : Type}.
Variable interp_text : fault -> string.
Variable loads : bytes -> outcome pyval.
Variable dumps : pyval -> outcome bytes.

Implicit Types (reg : gmap string (api.entry World)).
Implicit Types (c : core.connection) (r : @core.round World).

Abbreviation handle_buffer := (core.handle_buffer interp_text loads dumps).
Abbreviation read_loop := (core.read_loop interp_text loads dumps).
Abbreviation _handle_client := (core._handle_client interp_text loads dumps).
Abbreviation extracted_message_gone := (core.extracted_message_gone loads).

(** Writing to the socket leaves buffer and history alone. *)
Lemma sendall_frame (answer : outcome unit) (data : bytes) c :
  core.buffer (core.sendall answer data c).2 = core.buffer c
  /\ core.submitted (core.sendall answer data c).2 = core.submitted c
  /\ core.client_closed (core.sendall answer data c).2 = core.client_closed c.
Proof. unfold core.sendall. by destruct answer. Qed.

(** The buffer parses: it is emptied, and the command is handed over with
    the buffer already empty. *)
Lemma handle_buffer_parsed reg r c (command : pyval) :
  loads (core.buffer c) = Return command ->
  core.buffer (handle_buffer reg r c).2 = []
  /\ core.submitted (handle_buffer reg r c).2
     = (core.submitted c ++ [(command, [])])%list.
Proof.
  intros Hloads.
  unfold core.handle_buffer, try_except, try_except_pass, try_except,
    bind, get, lift, modify, ret, core.submit.
  rewrite Hloads. cbn.
  destruct (dumps _) as [data|e]; cbn.
  - unfold core.sendall. destruct (core.r_sendall r) as [[]|e]; cbn; [done|].
    destruct (is_JSONDecodeError e); [done|].
    destruct (is_Exception e); [|done].
    destruct (dumps _) as [data'|e']; cbn; [|done].
    by destruct (core.r_sendall_error r).
  - destruct (is_JSONDecodeError e); [done|].
    destruct (is_Exception e); [|done].
    destruct (dumps _) as [data'|e']; cbn; [|done].
    unfold core.sendall. by destruct (core.r_sendall_error r).
Qed.

(** The buffer does not parse: it is left as it is, and nothing is handed
    over. *)
Lemma handle_buffer_unparsed reg r c (e : exn) :
  loads (core.buffer c) = Raise e ->
  core.buffer (handle_buffer reg r c).2 = core.buffer c
  /\ core.submitted (handle_buffer reg r c).2 = core.submitted c.
Proof.
  intros Hloads.
  unfold core.handle_buffer, try_except, try_except_pass, try_except,
    bind, get, lift, modify, ret.
  rewrite Hloads. cbn.
  destruct (is_JSONDecodeError e); [done|].
  destruct (is_Exception e); [|done].
  destruct (dumps _) as [data'|e']; cbn; [|done].
  unfold core.sendall. by destruct (core.r_sendall_error r).
Qed.

Lemma handle_buffer_closed reg r c :
  core.client_closed (handle_buffer reg r c).2 = core.client_closed c.
Proof.
  unfold core.handle_buffer, try_except, try_except_pass, try_except,
    bind, get, lift, modify, ret, core.submit, core.sendall.
  destruct (loads _) as [command|e]; cbn.
  - destruct (dumps _) as [data|e]; cbn.
    + destruct (core.r_sendall r) as [[]|e]; cbn; [done|].
      destruct (is_JSONDecodeError e); [done|].
      destruct (is_Exception e); [|done].
      destruct (dumps _) as [data'|e']; cbn; [|done].
      by destruct (core.r_sendall_error r).
    + destruct (is_JSONDecodeError e); [done|].
      destruct (is_Exception e); [|done].
      destruct (dumps _) as [data'|e']; cbn; [|done].
      by destruct (core.r_sendall_error r).
  - destruct (is_JSONDecodeError e); [done|].
    destruct (is_Exception e); [|done].
    destruct (dumps _) as [data'|e']; cbn; [|done].
    by destruct (core.r_sendall_error r).
Qed.


Lemma handle_buffer_invariant reg r c :
  Forall (fun handed => handed.2 = []) (core.submitted c) ->
  extracted_message_gone (handle_buffer reg r c).2.
Proof.
  intros Hhist. unfold core.extracted_message_gone.
  destruct (loads (core.buffer c)) as [command|e] eqn:Hloads.
  - destruct (handle_buffer_parsed reg r c command Hloads) as [-> ->].
    split; [by left|]. apply Forall_app. split; [done|]. by constructor.
  - destruct (handle_buffer_unparsed reg r c e Hloads) as [-> ->].
    split; [right; by exists e|done].
Qed.

Lemma read_loop_invariant reg (rounds : list core.round) c :
  extracted_message_gone c ->
  extracted_message_gone (read_loop reg rounds c).2.
Proof.
  revert c. induction rounds as [|r rest IH]; intros c Hinv; [done|].
  cbn [core.read_loop]. destruct (core.r_running r); cbn [negb]; [|done].
  unfold bind at 1. unfold lift at 1.
  destruct (core.r_recv r) as [[|b data]|e]; [done| |done].
  unfold bind at 1. unfold modify at 1.
  set (c1 := core.set_buffer _ c).
  assert (Hhist : Forall (fun handed => handed.2 = []) (core.submitted c1))
    by (destruct Hinv as [_ Hhist]; exact Hhist).
  pose proof (handle_buffer_invariant reg r c1 Hhist) as Hstep.
  unfold bind at 1.
  destruct (handle_buffer reg r c1) as [[[]|e] c2]; cbn [snd] in *; [|done].
  by apply IH.
Qed.

(** The handler leaves the loop at a round that finds the server stopped,
    reads zero bytes, or whose read raises, if not before. *)
Lemma read_loop_leaves reg (pre post : list core.round) r c :
  core.r_running r = false \/ core.r_recv r = Return [] \/
    (exists e, core.r_recv r = Raise e) ->
  (read_loop reg (pre ++ r :: post) c).1 ≠ Return core.Reading.
Proof.
  intros Hend. revert c. induction pre as [|a pre IH]; intros c.
  - cbn [app core.read_loop]. destruct (core.r_running r) eqn:Hrun; cbn [negb]; [|done].
    unfold bind, lift.
    destruct Hend as [Hstop|[Hzero|[e Hraise]]].
    + discriminate.
    + by rewrite Hzero.
    + by rewrite Hraise.
  - cbn [app core.read_loop]. destruct (core.r_running a); cbn [negb]; [|done].
    unfold bind at 1. unfold lift at 1.
    destruct (core.r_recv a) as [[|b data]|e]; [done| |done].
    unfold bind at 1. unfold modify at 1. unfold bind at 1.
    destruct (handle_buffer reg a _) as [[[]|e] c2]; [apply IH|done].
Qed.

Lemma read_loop_closed reg (rounds : list core.round) c :
  core.client_closed (read_loop reg rounds c).2 = core.client_closed c.
Proof.
  revert c. induction rounds as [|r rest IH]; intros c; [done|].
  cbn [core.read_loop]. destruct (core.r_running r); cbn [negb]; [|done].
  unfold bind at 1. unfold lift at 1.
  destruct (core.r_recv r) as [[|b data]|e]; [done| |done].
  unfold bind at 1. unfold modify at 1. unfold bind at 1.
  pose proof (handle_buffer_closed reg r (core.set_buffer (core.buffer c ++ b :: data)%list c)) as Hstep.
  destruct (handle_buffer reg r _) as [[[]|e] c2]; cbn [snd] in *; [|done].
  by rewrite IH.
Qed.

Lemma try_except_Exception_ret_state {S A} (body : M S A) (a : A) (s : S) :
  (try_except_Exception body (fun _ => ret a) s).2 = (body s).2.
Proof.
  unfold try_except_Exception, try_except, ret.
  destruct (body s) as [[x|e] s']; [done|]. by destruct (is_Exception e).
Qed.

Lemma _handle_client_state reg (rounds : list core.round) c :
  core.buffer (_handle_client reg rounds c).2
  = core.buffer (read_loop reg rounds (core.set_buffer [] c)).2
  /\ core.submitted (_handle_client reg rounds c).2
     = core.submitted (read_loop reg rounds (core.set_buffer [] c)).2.
Proof.
  unfold core._handle_client.
  pose proof (try_except_Exception_ret_state
                (read_loop reg rounds) core.Exited (core.set_buffer [] c)) as Hstate.
  destruct (try_except_Exception _ _ _) as [[[]|e] c']; cbn [snd] in *;
    by rewrite <- Hstate.
Qed.

Lemma _handle_client_reading reg (rounds : list core.round) c :
  (_handle_client reg rounds c).1 = Return core.Reading
  <-> (read_loop reg rounds (core.set_buffer [] c)).1 = Return core.Reading.
Proof.
  unfold core._handle_client, try_except_Exception, try_except, ret.
  destruct (read_loop reg rounds _) as [[[]|e] c']; cbn [fst]; try done.
  destruct (is_Exception e); cbn [fst]; by split.
Qed.

(** C5.  One pass over the received bytes: when the accumulated buffer
    parses, the buffer is empty afterwards and the command was handed to
    the dispatch with the buffer already empty; when it does not parse,
    the buffer is what it was.  So after a round the buffer is empty or the
    old buffer with the new bytes appended, and at every point the handler
    can be found, no extracted message is left in the buffer and every
    command was handed over with the buffer empty. *)
Theorem buffer_cleared_before_dispatch reg r (rounds : list core.round) c
    (timers : list pyval) (data : bytes) :
  (forall command,
      loads (core.buffer c) = Return command ->
      core.buffer (handle_buffer reg r c).2 = []
      /\ core.submitted (handle_buffer reg r c).2
         = (core.submitted c ++ [(command, [])])%list)
  /\ (forall e,
        loads (core.buffer c) = Raise e ->
        core.buffer (handle_buffer reg r c).2 = core.buffer c
        /\ core.submitted (handle_buffer reg r c).2 = core.submitted c)
  /\ (core.r_running r = true -> core.r_recv r = Return data -> data ≠ [] ->
      core.buffer (read_loop reg [r] c).2
      = match loads (core.buffer c ++ data)%list with
        | Return _ => []
        | Raise _ => (core.buffer c ++ data)%list
        end)
  /\ extracted_message_gone
       (_handle_client reg rounds (core.new_connection timers)).2.
Proof.
  split; [|split; [|split]].
  - apply handle_buffer_parsed.
  - apply handle_buffer_unparsed.
  - intros Hrun Hrecv Hdata. cbn [core.read_loop]. rewrite Hrun. cbn [negb].
    unfold bind at 1. unfold lift at 1. rewrite Hrecv.
    destruct data as [|b data]; [done|].
    unfold bind at 1. unfold modify at 1. unfold bind at 1.
    set (c1 := core.set_buffer _ c).
    change (core.buffer c ++ b :: data)%list with (core.buffer c1).
    destruct (loads (core.buffer c1)) as [command|e] eqn:Hloads.
    + destruct (handle_buffer_parsed reg r c1 command Hloads) as [Hbuf _].
      by destruct (handle_buffer reg r c1) as [[[]|e] c2].
    + destruct (handle_buffer_unparsed reg r c1 e Hloads) as [Hbuf _].
      by destruct (handle_buffer reg r c1) as [[[]|e'] c2].
  - destruct (_handle_client_state reg rounds (core.new_connection timers)) as [Hbuf Hsub].
    unfold core.extracted_message_gone. rewrite Hbuf, Hsub.
    apply read_loop_invariant. split; [by left|by constructor].
Qed.

(** C6.  Once the handler is no longer reading, the client socket is
    closed.  The handler stops reading at the latest at a round whose read
    returns zero bytes or raises, or that finds the server no longer
    running.  While it reads it does not close the socket. *)
Theorem handler_exit_closes_socket reg (rounds pre post : list core.round) r c :
  ((_handle_client reg rounds c).1 ≠ Return core.Reading ->
     core.client_closed (_handle_client reg rounds c).2 = true)
  /\ (core.r_running r = false \/ core.r_recv r = Return [] \/
        (exists e, core.r_recv r = Raise e) ->
      (_handle_client reg (pre ++ r :: post) c).1 ≠ Return core.Reading
      /\ core.client_closed (_handle_client reg (pre ++ r :: post) c).2 = true)
  /\ ((_handle_client reg rounds c).1 = Return core.Reading ->
      core.client_closed (_handle_client reg rounds c).2 = core.client_closed c).
Proof.
  assert (Hclosed : forall rounds,
             (_handle_client reg rounds c).1 ≠ Return core.Reading ->
             core.client_closed (_handle_client reg rounds c).2 = true).
  { intros rs. unfold core._handle_client.
    by destruct (try_except_Exception _ _ _) as [[[]|e] c']. }
  split; [apply Hclosed|split].
  - intros Hend.
    assert (Hleft : (_handle_client reg (pre ++ r :: post) c).1 ≠ Return core.Reading).
    { rewrite _handle_client_reading. by apply read_loop_leaves. }
    split; [exact Hleft|by apply Hclosed].
  - intros Hreading. unfold core._handle_client in *.
    pose proof (try_except_Exception_ret_state
                  (read_loop reg rounds) core.Exited (core.set_buffer [] c)) as Hstate.
    destruct (try_except_Exception _ _ _) as [[[]|e] c']; cbn [fst snd] in *;
      try discriminate.
    by rewrite Hstate, read_loop_closed.
Qed.

End ConnectionProperties.

Section LifecycleProperties.

Implicit Types (p : core.process) (env : core.start_env).

Lemma stop_stopped p :
  core.running (core.self (core.stop p)) = false
  /\ core.socket (core.self (core.stop p)) = None
  /\ core.server_thread (core.self (core.stop p)) = None.
Proof.
  unfold core.stop.
  destruct p as [[h po run [fd|] [t|]] fds]; by cbn.
Qed.

(** C8.  When [start()] is called on a server that is not running and the
    bind or the listen fails, [start()] returns with the running flag false
    and the listening socket absent; called on a stopped server, it leaves
    the server and the sockets of the process exactly as they were. *)
Theorem failed_start_returns_to_stopped env p (fd : nat) (e : exn) :
  core.running (core.self p) = false ->
  core.socket_result env = Return fd ->
  core.setsockopt_result env = Return tt ->
  core.bind_result env = Raise e
    \/ (core.bind_result env = Return tt /\ core.listen_result env = Raise e) ->
  is_Exception e = true ->
  (core.start env p).1 = Return tt
  /\ core.running (core.self (core.start env p).2) = false
  /\ core.socket (core.self (core.start env p).2) = None
  /\ (core.socket (core.self p) = None ->
      core.server_thread (core.self p) = None ->
      fd ∉ core.open_sockets p ->
      (core.start env p).2 = p).
Proof.
  intros Hrun Hsock Hopt Hfail He.
  assert (Hstart : core.start env p
                   = (Return tt,
                      core.stop (core.set_socket (Some fd)
                                   (core.opened fd (core.set_running true p))))).
  { unfold core.start, try_except_Exception, try_except, bind, lift, modify.
    rewrite Hrun, Hsock, Hopt.
    destruct Hfail as [Hbind|[Hbind Hlisten]].
    - by rewrite Hbind, He.
    - by rewrite Hbind, Hlisten, He. }
  rewrite Hstart. cbn [fst snd].
  destruct (stop_stopped (core.set_socket (Some fd)
                            (core.opened fd (core.set_running true p))))
    as (Hr & Hs & _).
  split; [done|]. split; [done|]. split; [done|].
  intros Hnone Hthread Hfresh. clear Hstart Hr Hs.
  destruct p as [[h po run so th] fds]. cbn in *. subst.
  unfold core.stop, core.set_socket, core.closed, core.set_running, core.opened.
  cbn. f_equal. apply set_eq. intros x.
  rewrite elem_of_difference, elem_of_union, elem_of_singleton.
  split; [intros [[->|Hx] Hne]; done|].
  intros Hx. split; [by right|]. by intros ->.
Qed.

End LifecycleProperties.

Section ClientProperties.
Variable interp_text : fault -> string.
Variable loads : bytes -> outcome pyval.
Variable dumps : pyval -> outcome bytes.

Implicit Types (c : server.BlenderConnection) (env : server.call_env).

Abbreviation receive_full_response := (server.receive_full_response loads).
Abbreviation send_command := (server.send_command interp_text loads dumps).
Abbreviation incomplete := (server.incomplete loads).
Abbreviation command_of := server.command_of.


Lemma receive_incomplete (chunks : list bytes) (rest : list (outcome bytes)) (buffer : bytes) :
  incomplete chunks buffer = true ->
  receive_full_response (map Return chunks ++ rest) buffer
  = receive_full_response rest (buffer ++ concat chunks)%list.
Proof.
  revert buffer. induction chunks as [|chunk chunks IH]; intros buffer Hinc.
  - cbn. by rewrite app_nil_r.
  - cbn in Hinc. destruct chunk as [|b chunk]; [discriminate|].
    cbn [map app server.receive_full_response concat].
    destruct (loads (buffer ++ b :: chunk)%list) as [v|e]; [discriminate|].
    apply andb_prop in Hinc as [Hjson Hinc]. rewrite Hjson.
    rewrite IH by exact Hinc. by rewrite <- app_assoc.
Qed.


(** With a cached connection, a serialisable command and a completed send,
    the call is decided by what the receive loop yields. *)
Lemma send_command_receive env (command_type : string) (params : pyval) c (fd : nat)
    (data : bytes) (e : exn) :
  server.sock c = Some fd ->
  dumps (command_of command_type params) = Return data ->
  server.sendall_result env = Return tt ->
  receive_full_response (server.recvs env) [] = Some (Raise e) ->
  send_command env command_type params c
  = if is_socket_error e then
      (Raise (Exn PlainException ("Connection to Blender lost: " +:+ exn_text e)),
       server.set_sock None c)
    else if is_JSONDecodeError e then
      (Raise (Exn PlainException ("Invalid response from Blender: " +:+ exn_text e)), c)
    else if is_Exception e then
      (Raise (Exn PlainException ("Communication error with Blender: " +:+ exn_text e)),
       server.set_sock None c)
    else (Raise e, c).
Proof.
  intros Hsock Hdumps Hsend Hrecv.
  unfold server.send_command, try_except. unfold bind at 1. rewrite Hsock. cbn [negb].
  cbv zeta.
  unfold bind at 1. unfold lift at 1. rewrite Hdumps.
  unfold bind at 1. unfold lift at 1. rewrite Hsend, Hrecv.
  unfold bind at 1. unfold lift at 1.
  destruct (is_socket_error e); [reflexivity|].
  destruct (is_JSONDecodeError e); [reflexivity|].
  by destruct (is_Exception e).
Qed.

(** The same, when the receive loop hands back bytes that do not parse. *)
Lemma send_command_unparsable env (command_type : string) (params : pyval) c (fd : nat)
    (data response_data : bytes) (e : exn) :
  server.sock c = Some fd ->
  dumps (command_of command_type params) = Return data ->
  server.sendall_result env = Return tt ->
  receive_full_response (server.recvs env) [] = Some (Return response_data) ->
  loads response_data = Raise e ->
  is_JSONDecodeError e = true ->
  send_command env command_type params c
  = (Raise (Exn PlainException ("Invalid response from Blender: " +:+ exn_text e)), c).
Proof.
  intros Hsock Hdumps Hsend Hrecv Hloads Hjson.
  unfold server.send_command, try_except. unfold bind at 1. rewrite Hsock. cbn [negb].
  cbv zeta.
  unfold bind at 1. unfold lift at 1. rewrite Hdumps.
  unfold bind at 1. unfold lift at 1. rewrite Hsend, Hrecv.
  unfold bind at 1. unfold lift at 1.
  unfold bind at 1. unfold lift at 1. rewrite Hloads.
  assert (Hsockerr : is_socket_error e = false).
  { unfold is_JSONDecodeError, is_socket_error in *. by destruct (exn_class_of e). }
  by rewrite Hsockerr, Hjson.
Qed.

(** C7.  On a cached connection: a socket error raised by the send, or by
    a receive, clears the cached socket handle and is raised to the caller
    as a lost connection; a receive timeout is raised as a communication
    error naming the timeout; a response that ends without parsing as JSON
    is raised as an invalid response; the three failures differ whatever
    the underlying error texts.  After the handle is cleared, the next call
    connects anew and proceeds on the new socket. *)
Theorem socket_error_clears_connection env env' (command_type : string)
    (params : pyval) c (fd fd' : nat) (data : bytes) (e : exn)
    (chunks : list bytes) (rest : list (outcome bytes)) :
  server.sock c = Some fd ->
  dumps (command_of command_type params) = Return data ->
  (server.sendall_result env = Raise e -> is_socket_error e = true ->
     send_command env command_type params c
     = (Raise (Exn PlainException ("Connection to Blender lost: " +:+ exn_text e)),
        {| server.host := server.host c; server.port := server.port c;
           server.sock := None |}))
  /\ (server.sendall_result env = Return tt ->
      server.recvs env = (map Return chunks ++ Raise e :: rest)%list ->
      incomplete chunks [] = true ->
      is_socket_error e = true -> is_socket_timeout e = false ->
      send_command env command_type params c
      = (Raise (Exn PlainException ("Connection to Blender lost: " +:+ exn_text e)),
         {| server.host := server.host c; server.port := server.port c;
            server.sock := None |}))
  /\ (server.sendall_result env = Return tt ->
      server.recvs env = (map Return chunks ++ Raise e :: rest)%list ->
      incomplete chunks [] = true ->
      is_socket_timeout e = true ->
      send_command env command_type params c
      = (Raise (Exn PlainException
                  "Communication error with Blender: Timeout while receiving data from Blender"),
         {| server.host := server.host c; server.port := server.port c;
            server.sock := None |}))
  /\ (server.sendall_result env = Return tt ->
      server.recvs env = (map Return chunks ++ Return [] :: rest)%list ->
      incomplete chunks [] = true ->
      loads (concat chunks) = Raise e -> is_JSONDecodeError e = true ->
      send_command env command_type params c
      = (Raise (Exn PlainException ("Invalid response from Blender: " +:+ exn_text e)), c))
  /\ (forall a b : string,
        "Connection to Blender lost: " +:+ a ≠ "Communication error with Blender: " +:+ b
        /\ "Connection to Blender lost: " +:+ a ≠ "Invalid response from Blender: " +:+ b
        /\ "Communication error with Blender: " +:+ a ≠ "Invalid response from Blender: " +:+ b)
  /\ (server.socket_result env' = Return fd' ->
      server.connect_result env' = Return tt ->
      server.connect env'
        {| server.host := server.host c; server.port := server.port c;
           server.sock := None |}
      = (Return true,
         {| server.host := server.host c; server.port := server.port c;
            server.sock := Some fd' |})
      /\ send_command env' command_type params
           {| server.host := server.host c; server.port := server.port c;
              server.sock := None |}
         = send_command env' command_type params
             {| server.host := server.host c; server.port := server.port c;
                server.sock := Some fd' |}).
Proof.
  intros Hsock Hdumps. repeat split.
  - intros Hsend Herr.
    unfold server.send_command, try_except. unfold bind at 1. rewrite Hsock. cbn [negb].
    cbv zeta.
    unfold bind at 1. unfold lift at 1. rewrite Hdumps.
    unfold bind at 1. unfold lift at 1. rewrite Hsend.
    by rewrite Herr.
  - intros Hsend Hrecvs Hinc Herr Htimeout.
    rewrite (send_command_receive env command_type params c fd data e Hsock Hdumps Hsend).
    + by rewrite Herr.
    + rewrite Hrecvs, receive_incomplete by exact Hinc.
      cbn [server.receive_full_response]. by rewrite Htimeout.
  - intros Hsend Hrecvs Hinc Htimeout.
    rewrite (send_command_receive env command_type params c fd data
               server.timeout_error Hsock Hdumps Hsend).
    + reflexivity.
    + rewrite Hrecvs, receive_incomplete by exact Hinc.
      cbn [server.receive_full_response]. by rewrite Htimeout.
  - intros Hsend Hrecvs Hinc Hloads Hjson.
    apply (send_command_unparsable env command_type params c fd data (concat chunks) e
             Hsock Hdumps Hsend); [|exact Hloads|exact Hjson].
    rewrite Hrecvs, receive_incomplete by exact Hinc. reflexivity.
  - cbn. by intros [=].
  - cbn. by intros [=].
  - cbn. by intros [=].
  - unfold server.connect, try_except_Exception, try_except, bind, lift, modify, ret.
    cbn. by rewrite H, H0.
  - unfold server.send_command. unfold bind at 1 3.
    unfold server.connect, try_except_Exception, try_except, bind, lift, modify, ret.
    cbn. by rewrite H, H0.
Qed.

End ClientProperties.

(** * Further properties of the bridge *)

Section RegistryDiscovery.
Context {World : Type}.

Implicit Types (reg : gmap string (api.entry World)) (h : api.handler World).
Implicit Types (items : list (string * api.entry World)).

Lemma decorated_entry_description (d : option string) h :
  api.e_description (api.decorated_entry d h) ≠ ""
  /\ (forall s, d = Some s -> s ≠ "" -> api.e_description (api.decorated_entry d h) = s)
  /\ (d = None \/ d = Some "" ->
      (forall s, api.h_doc h = Some s -> s ≠ "" ->
                 api.e_description (api.decorated_entry d h) = s)
      /\ (api.h_doc h = None \/ api.h_doc h = Some "" ->
          api.e_description (api.decorated_entry d h) = "No description provided")).
Proof.
  assert (Htruthy : forall s, s ≠ "" -> api.str_truthy (Some s) = true).
  { intros s Hs. unfold api.str_truthy. by destruct (String.eqb_spec s ""). }
  assert (Hgiven : forall s, s ≠ "" ->
             api.e_description (api.decorated_entry (Some s) h) = s).
  { intros s Hs. unfold api.decorated_entry, api.or_else. cbn [api.e_description].
    by rewrite !(Htruthy s Hs). }
  assert (Hdoc : d = None \/ d = Some "" -> forall s, api.h_doc h = Some s -> s ≠ "" ->
             api.e_description (api.decorated_entry d h) = s).
  { intros Hd s Hh Hs. unfold api.decorated_entry, api.or_else. cbn [api.e_description].
    assert (Hfalsy : api.str_truthy d = false) by (destruct Hd as [->| ->]; reflexivity).
    by rewrite Hfalsy, Hh, (Htruthy s Hs). }
  assert (Hnone : d = None \/ d = Some "" -> api.h_doc h = None \/ api.h_doc h = Some "" ->
             api.e_description (api.decorated_entry d h) = "No description provided").
  { intros Hd Hh. unfold api.decorated_entry, api.or_else. cbn [api.e_description].
    destruct Hd as [->| ->], Hh as [->| ->]; reflexivity. }
  split; [|split].
  - assert (Hcases : (exists s, d = Some s /\ s ≠ "") \/ d = None \/ d = Some "").
    { destruct d as [s|]; [|by right; left].
      destruct (String.eqb_spec s "") as [->|Hs]; [by right; right|left; by exists s]. }
    destruct Hcases as [(s & -> & Hs)|Hd]; [by rewrite (Hgiven s Hs)|].
    assert (Hdocs : (exists t, api.h_doc h = Some t /\ t ≠ "")
                    \/ api.h_doc h = None \/ api.h_doc h = Some "").
    { destruct (api.h_doc h) as [t|]; [|by right; left].
      destruct (String.eqb_spec t "") as [->|Ht]; [by right; right|left; by exists t]. }
    destruct Hdocs as [(t & Hh & Ht)|Hh].
    + by rewrite (Hdoc Hd t Hh Ht).
    + by rewrite (Hnone Hd Hh).
  - intros s ->. apply Hgiven.
  - intros Hd. split; [by apply Hdoc|by apply Hnone].
Qed.

(** X1.  What [get_available_commands] shows after a registration: the
    registered name carries a description that is never empty: the one
    given if it is not empty, else the handler's docstring if that is not
    empty, else "No description provided"; every other name keeps the
    description it had. *)
Theorem registration_describes_command reg (name : string) (d : option string) h :
  (exists desc,
      commands.get_available_commands (api.register_command name d h reg) !! name
      = Some desc
      /\ desc ≠ ""
      /\ (forall s, d = Some s -> s ≠ "" -> desc = s)
      /\ (d = None \/ d = Some "" ->
          (forall s, api.h_doc h = Some s -> s ≠ "" -> desc = s)
          /\ (api.h_doc h = None \/ api.h_doc h = Some "" ->
              desc = "No description provided")))
  /\ (forall other, other ≠ name ->
        commands.get_available_commands (api.register_command name d h reg) !! other
        = commands.get_available_commands reg !! other).
Proof.
  unfold commands.get_available_commands, api.get_all_commands. split.
  - exists (api.e_description (api.decorated_entry d h)).
    split; [|apply decorated_entry_description].
    rewrite lookup_fmap. unfold api.register_command. by rewrite lookup_insert_eq.
  - intros other Hne. rewrite !lookup_fmap. unfold api.register_command.
    by rewrite lookup_insert_ne.
Qed.

Lemma dict_assign_to_map (name : string) (e : api.entry World) items :
  (list_to_map (api.dict_assign name e items) : gmap string (api.entry World))
  = <[name := e]> (list_to_map items).
Proof.
  induction items as [|[k v] rest IH]; cbn.
  - reflexivity.
  - destruct (String.eqb_spec k name) as [->|Hne]; cbn.
    + by rewrite insert_insert_eq.
    + rewrite IH. by apply insert_insert_ne.
Qed.

Lemma dict_assign_keys (name : string) (e : api.entry World) items :
  map fst (api.dict_assign name e items)
  = if bool_decide (name ∈ map fst items) then map fst items
    else (map fst items ++ [name])%list.
Proof.
  induction items as [|[k v] rest IH]; cbn.
  - reflexivity.
  - destruct (String.eqb_spec k name) as [->|Hne]; cbn.
    + rewrite bool_decide_true by (left). reflexivity.
    + rewrite IH. destruct (bool_decide (name ∈ map fst rest)) eqn:Hin.
      * apply bool_decide_eq_true in Hin.
        rewrite bool_decide_true by (by right). reflexivity.
      * apply bool_decide_eq_false in Hin.
        rewrite bool_decide_false; [reflexivity|].
        intros Hin'. apply elem_of_cons in Hin' as [->|Hin']; done.
Qed.

Lemma dict_assign_NoDup (name : string) (e : api.entry World) items :
  NoDup (map fst items) -> NoDup (map fst (api.dict_assign name e items)).
Proof.
  intros Hnodup. rewrite dict_assign_keys.
  destruct (bool_decide (name ∈ map fst items)) eqn:Hin; [done|].
  apply bool_decide_eq_false in Hin.
  apply NoDup_app. split; [done|]. split.
  - intros x Hx Hx'. apply list_elem_of_singleton in Hx'. by subst.
  - apply NoDup_singleton.
Qed.

Lemma register_all_ordered_spec
    (decorated : list (string * option string * api.handler World)) items :
  (list_to_map (register_all_ordered decorated items) : gmap string (api.entry World))
  = register_all decorated (list_to_map items)
  /\ (NoDup (map fst items) -> NoDup (map fst (register_all_ordered decorated items))).
Proof.
  revert items. induction decorated as [|[[n d] h] rest IH]; intros items.
  - by split.
  - unfold register_all_ordered, register_all in *. cbn [foldl fst snd].
    destruct (IH (api.register_command_ordered n d h items)) as [Hmap Hnodup].
    split.
    + rewrite Hmap. unfold api.register_command_ordered.
      by rewrite dict_assign_to_map.
    + intros Hitems. apply Hnodup. by apply dict_assign_NoDup.
Qed.

(** The registry kept in dict order and the registry kept as a map
    are one registry: a registration on the ordered one is the same
    registration on the map it represents, and lookups agree.  In the
    ordered one a name registered again keeps its place and takes the new
    entry; a new name goes to the end; names stay without duplicates. *)
Theorem ordered_registry_refines_map (name : string) (d : option string) h items :
  (list_to_map (api.register_command_ordered name d h items)
     : gmap string (api.entry World))
  = api.register_command name d h (list_to_map items)
  /\ api.get_command (list_to_map (api.register_command_ordered name d h items)) name
     = Some h
  /\ map fst (api.register_command_ordered name d h items)
     = (if bool_decide (name ∈ map fst items) then map fst items
        else (map fst items ++ [name])%list)
  /\ (NoDup (map fst items) ->
      NoDup (map fst (api.register_command_ordered name d h items))).
Proof.
  unfold api.register_command_ordered.
  split; [|split; [|split]].
  - by rewrite dict_assign_to_map.
  - rewrite dict_assign_to_map. unfold api.get_command.
    by rewrite lookup_insert_eq.
  - apply dict_assign_keys.
  - apply dict_assign_NoDup.
Qed.

(** X2.  [list_commands] on the registry a run of decorators leaves: it
    lists one command per registered name, each with the description of
    the name's last registration, and its count is the number of distinct
    names, not the number of registrations. *)
Theorem list_commands_counts_names
    (decorated : list (string * option string * api.handler World)) :
  exists cmds,
    system.list_commands (register_all_ordered decorated [])
    = PDict [("commands", PList cmds);
             ("count", PInt (Z.of_nat (size (register_all decorated ∅))))]
    /\ length cmds = size (register_all decorated ∅)
    /\ (forall (name : string) (desc : string),
          PDict [("name", PStr name); ("description", PStr desc)] ∈ cmds
          <-> commands.get_available_commands (register_all decorated ∅) !! name
              = Some desc).
Proof.
  destruct (register_all_ordered_spec decorated []) as [Hmap Hnodup].
  specialize (Hnodup (NoDup_nil_2)).
  set (items := register_all_ordered decorated []) in *.
  change (list_to_map []) with (∅ : gmap string (api.entry World)) in Hmap.
  rewrite <- Hmap.
  assert (Hsize : size (list_to_map items : gmap string (api.entry World)) = length items).
  { by apply map_size_list_to_map. }
  eexists. split; [|split].
  - unfold system.list_commands. rewrite length_map, Hsize. reflexivity.
  - by rewrite length_map, Hsize.
  - intros name desc.
    unfold commands.get_available_commands, api.get_all_commands.
    rewrite lookup_fmap. split.
    + intros Hin. apply list_elem_of_fmap in Hin as [[k v] [Heq Hin]].
      injection Heq as -> ->.
      by rewrite (elem_of_list_to_map_1 items k v Hnodup Hin).
    + intros Hlook.
      destruct (list_to_map items !! name) as [v|] eqn:Hv; [|discriminate].
      injection Hlook as <-.
      apply elem_of_list_to_map_2 in Hv.
      apply list_elem_of_fmap. by exists (name, v).
Qed.

End RegistryDiscovery.

Section DispatchEdges.
Context {World : Type}.
Variable interp_text : fault -> string.

Implicit Types (reg : gmap string (api.entry World)) (h : api.handler World).
Implicit Types (w : World) (name : string) (e : exn).

(** X3.  The params of a registered command: [None] stands for the empty
    mapping; any other value that is not a mapping is refused with the
    interpreter's [TypeError] text, which names the handler and the type of
    the params, in an error envelope, without the handler being called and
    with the host untouched. *)
Theorem params_must_be_a_mapping reg name h (params : pyval) w :
  api.get_command reg name = Some h ->
  commands.execute_command interp_text reg (PStr name) PNone w
  = commands.execute_command interp_text reg (PStr name) (PDict []) w
  /\ ((forall kv, params ≠ PDict kv) -> params ≠ PNone ->
      commands.execute_command interp_text reg (PStr name) params w
      = (Return (error_envelope
                   (interp_text (NotAMapping (api.h_name h) (type_name params)))), w)).
Proof.
  intros Hget. split; [reflexivity|].
  intros Hdict Hnone.
  unfold commands.execute_command, try_except_Exception, try_except, bind, lift, ret.
  cbn [commands.lookup_handler]. rewrite Hget.
  destruct params; try reflexivity; [by destruct Hnone|by destruct (Hdict kv)].
Qed.

(** X4.  A command type that is not a string never reaches a handler and
    leaves the host untouched: a list or a dict cannot be looked up and the
    interpreter's error comes back in an envelope; [None], a boolean or a
    number is reported as an unknown command under its [str]. *)
Theorem command_type_must_be_a_string reg (command_type params : pyval) w :
  (forall s, command_type ≠ PStr s) ->
  commands.execute_command interp_text reg command_type params w
  = (Return
       (error_envelope
          match command_type with
          | PList _ | PDict _ => interp_text (Unhashable (type_name command_type))
          | _ => "Unknown command type: " +:+ py_str command_type
          end), w).
Proof.
  intros Hstr.
  unfold commands.execute_command, try_except_Exception, try_except, bind, lift, ret.
  destruct command_type; try reflexivity. by destruct (Hstr s).
Qed.


(** X6.  A decoded command that is not a JSON object (a list, a string, a
    number, ...) is answered with an error envelope carrying the
    interpreter's text for the missing [get]; the host is untouched and
    the job stores that envelope. *)
Theorem non_object_command_rejected reg (command : pyval) w :
  (forall kv, command ≠ PDict kv) ->
  core._execute_command_internal interp_text reg command w
  = (Return (error_envelope (interp_text (NoAttribute (type_name command) "get"))), w)
  /\ core.command_executor interp_text reg command core.new_container w
     = ({| core.result :=
             error_envelope (interp_text (NoAttribute (type_name command) "get"));
           core.done := true |}, w).
Proof.
  intros Hnot.
  assert (Hinternal :
            core._execute_command_internal interp_text reg command w
            = (Return (error_envelope
                         (interp_text (NoAttribute (type_name command) "get"))), w)).
  { unfold core._execute_command_internal, try_except_Exception, try_except, bind, lift.
    destruct command; try reflexivity. by destruct (Hnot kv). }
  split; [exact Hinternal|].
  by rewrite command_executor_result, Hinternal.
Qed.

(** X7.  The server answers the type "ping" itself: whatever the registry
    holds under that name and whatever the params are, the answer is the
    pong envelope and the host is untouched.  The dispatcher asked directly
    runs the registered handler. *)
Theorem ping_bypasses_registry reg h (kv params : pydict) w :
  dict_lookup "type" kv = Some (PStr "ping") ->
  api.get_command reg "ping" = Some h ->
  core._execute_command_internal interp_text reg (PDict kv) w
  = (Return (success_envelope (PStr "pong")), w)
  /\ commands.execute_command interp_text reg (PStr "ping") (PDict params) w
     = match api.h_call h params w with
       | (Return r, w') => (Return (success_envelope r), w')
       | (Raise e, w') =>
           if is_Exception e then (Return (error_envelope (exn_text e)), w')
           else (Raise e, w')
       end.
Proof.
  intros Htype Hget. split.
  - by rewrite _execute_command_internal_dict, Htype.
  - by apply execute_command_found.
Qed.

End DispatchEdges.

Section WaitBounds.
Context {World : Type}.
Variable interp_text : fault -> string.

Implicit Types (reg : gmap string (api.entry World)).
Implicit Types (env : @core.wait_env World) (command : pyval).

Lemma wait_log_spec reg command env (longest : Z) :
  (forall k, Z.of_nat (core.lag env k) <= longest) ->
  forall (k : nat) (now : Z),
    core.start_time env + 10 * Z.of_nat k <= now ->
    now <= core.start_time env + 30000 ->
    (core.wait_log interp_text reg command env k now).1.1
    = core.wait interp_text reg command env k now
    /\ (k <= (core.wait_log interp_text reg command env k now).1.2 <= 3001)%nat
    /\ now <= (core.wait_log interp_text reg command env k now).2
       <= core.start_time env + 30010 + longest.
Proof.
  intros Hlongest k now Hk Hnow.
  remember (Z.to_nat (core.start_time env + 30001 - now)) as n eqn:Hn.
  assert (Hmeasure : (Z.to_nat (core.start_time env + 30001 - now) <= n)%nat) by lia.
  clear Hn. revert k now Hk Hnow Hmeasure.
  induction n as [|n IH]; intros k now Hk Hnow Hmeasure; [lia|].
  pose proof (Hlongest k) as Hlag.
  rewrite wait_log_step, wait_step.
  destruct (core.done _).
  - cbn [fst snd]. split; [reflexivity|]. split; lia.
  - unfold core.sleep_interval, core.timeout.
    destruct (Z.gtb_spec (now + 10 + Z.of_nat (core.lag env k) - core.start_time env)
                30000) as [Hlate|Hearly].
    + cbn [fst snd]. split; [reflexivity|]. split; lia.
    + destruct (IH (S k) (now + 10 + Z.of_nat (core.lag env k)))
        as (Hresp & Hsleeps & Hclock); [lia|lia|lia|].
      split; [exact Hresp|]. split; lia.
Qed.

(** X8.  The submitter is never held for long: however the sleeps
    stretch, it takes at most 3001 of them, and it returns no later than
    30.010 s after the start plus the longest overshoot of a sleep.  What
    it returns is the timeout envelope or the result of a job whose flag
    was set within 30 s of the start. *)
Theorem wait_is_bounded reg command env (timers : list pyval) (longest : Z) :
  (forall k, Z.of_nat (core.lag env k) <= longest) ->
  (core.wait_log interp_text reg command env 0 (core.start_time env)).1.1
  = (core.execute_command interp_text reg command env timers).1
  /\ ((core.wait_log interp_text reg command env 0 (core.start_time env)).1.2 <= 3001)%nat
  /\ (core.wait_log interp_text reg command env 0 (core.start_time env)).2
     <= core.start_time env + 30010 + longest
  /\ ((core.execute_command interp_text reg command env timers).1
      = error_envelope "Command execution timed out"
      \/ exists t w,
           core.fired env = Some (t, w)
           /\ t <= core.start_time env + 30000
           /\ (core.execute_command interp_text reg command env timers).1
              = core.result
                  (core.command_executor interp_text reg command core.new_container w).1).
Proof.
  intros Hlongest.
  destruct (wait_log_spec reg command env longest Hlongest 0 (core.start_time env))
    as (Hresp & Hsleeps & Hclock); [lia|lia|].
  split; [exact Hresp|]. split; [lia|]. split; [lia|].
  unfold core.execute_command. cbn [fst].
  destruct (wait_result_or_timeout interp_text reg command env 0 (core.start_time env))
    as [Htimeout|(t & w & Hfired & Hresult)]; [by left|].
  destruct (Z.le_gt_cases t (core.start_time env + 30000)) as [Hle|Hgt].
  - right. by exists t, w.
  - left. apply wait_never_seen; [by rewrite Hfired|lia].
Qed.

(** X9.  A job that has already completed when the submitter first looks
    is answered at once, without a single sleep, however the clock
    behaves afterwards. *)
Theorem completed_job_returns_at_once reg command env (timers : list pyval)
    (t : Z) (w : World) :
  core.fired env = Some (t, w) ->
  t <= core.start_time env ->
  (core.execute_command interp_text reg command env timers).1
  = core.result (core.command_executor interp_text reg command core.new_container w).1
  /\ core.wait_log interp_text reg command env 0 (core.start_time env)
     = (core.result (core.command_executor interp_text reg command core.new_container w).1,
        0%nat, core.start_time env).
Proof.
  intros Hfired Hle.
  unfold core.execute_command. cbn [fst].
  rewrite wait_step, wait_log_step.
  rewrite (container_at_fired interp_text reg command env _ t w Hfired Hle).
  by rewrite command_executor_done.
Qed.

End WaitBounds.

Section LifecycleFurther.

Implicit Types (p : core.process) (env : core.start_env).

(** A successful [start()] on a server at rest. *)
Lemma start_success env p (fd : nat) :
  at_rest p ->
  succeeds env fd ->
  core.start env p
  = (Return tt,
     {| core.self :=
          {| core.host := core.host (core.self p); core.port := core.port (core.self p);
             core.running := true; core.socket := Some fd;
             core.server_thread := Some (core.thread_handle env) |};
        core.open_sockets := {[ fd ]} ∪ core.open_sockets p |}).
Proof.
  intros (Hrun & Hsock & Hthread) (Hs & Ho & Hb & Hl & Ht).
  unfold core.start, try_except_Exception, try_except, bind, lift, modify.
  rewrite Hrun, Hs, Ho, Hb, Hl, Ht. reflexivity.
Qed.

(** X10.  [start()] on a server at rest, when every call succeeds: the
    server is running on the new socket, which is open, with its accept
    thread.  [start()] on a running server changes nothing and opens no
    second socket. *)
Theorem start_brings_server_up env p (fd : nat) :
  (at_rest p ->
   core.socket_result env = Return fd ->
   core.setsockopt_result env = Return tt ->
   core.bind_result env = Return tt ->
   core.listen_result env = Return tt ->
   core.thread_start_result env = Return tt ->
   (core.start env p).1 = Return tt
   /\ core.self (core.start env p).2
      = {| core.host := core.host (core.self p); core.port := core.port (core.self p);
           core.running := true; core.socket := Some fd;
           core.server_thread := Some (core.thread_handle env) |}
   /\ core.open_sockets (core.start env p).2 = {[ fd ]} ∪ core.open_sockets p)
  /\ (core.running (core.self p) = true -> core.start env p = (Return tt, p)).
Proof.
  split.
  - intros (Hrun & Hsock & Hthread) Hs Ho Hb Hl Ht.
    unfold core.start, try_except_Exception, try_except, bind, lift, modify.
    rewrite Hrun, Hs, Ho, Hb, Hl, Ht. cbn. done.
  - intros Hrun. unfold core.start. by rewrite Hrun.
Qed.

(** X11.  [stop()] always leaves the server at rest, with its address
    kept and its listening socket closed; the other sockets of the
    process are not touched; a second [stop()] changes nothing. *)
Theorem stop_brings_server_down p :
  at_rest (core.stop p)
  /\ core.host (core.self (core.stop p)) = core.host (core.self p)
  /\ core.port (core.self (core.stop p)) = core.port (core.self p)
  /\ core.open_sockets (core.stop p)
     = match core.socket (core.self p) with
       | Some fd => core.open_sockets p ∖ {[ fd ]}
       | None => core.open_sockets p
       end
  /\ core.stop (core.stop p) = core.stop p.
Proof.
  destruct p as [[h po run [fd|] [t|]] fds]; by cbn.
Qed.

(** X12.  Starting a server at rest and stopping it again gives back the
    state before the start, the sockets of the process included. *)
Theorem start_then_stop_restores env p (fd : nat) :
  at_rest p ->
  fd ∉ core.open_sockets p ->
  core.socket_result env = Return fd ->
  core.setsockopt_result env = Return tt ->
  core.bind_result env = Return tt ->
  core.listen_result env = Return tt ->
  core.thread_start_result env = Return tt ->
  core.stop (core.start env p).2 = p.
Proof.
  intros (Hrun & Hsock & Hthread) Hfresh Hs Ho Hb Hl Ht.
  unfold core.start, try_except_Exception, try_except, bind, lift, modify.
  rewrite Hrun, Hs, Ho, Hb, Hl, Ht.
  destruct p as [[h po run so th] fds]. cbn in *. subst.
  unfold core.stop, core.set_socket, core.closed, core.set_running, core.opened,
    core.set_server_thread.
  cbn. f_equal. apply set_eq. intros x.
  rewrite elem_of_difference, elem_of_union, elem_of_singleton.
  split; [intros [[->|Hx] Hne]; done|].
  intros Hx. split; [by right|]. by intros ->.
Qed.

(** A failed [start()] on a server at rest undoes itself. *)
Lemma start_failure_restores env p :
  at_rest p ->
  undisturbed env ->
  (forall fd, core.socket_result env = Return fd -> fd ∉ core.open_sockets p) ->
  (exists e, core.socket_result env = Raise e
             \/ core.setsockopt_result env = Raise e
             \/ core.bind_result env = Raise e
             \/ core.listen_result env = Raise e
             \/ core.thread_start_result env = Raise e) ->
  core.start env p = (Return tt, p).
Proof.
  intros (Hrun & Hsock & Hthread) (Hs & Ho & Hb & Hl & Ht) Hfresh Hfail.
  assert (Hback : forall fd, fd ∉ core.open_sockets p ->
            core.stop (core.set_socket (Some fd)
                         (core.opened fd (core.set_running true p))) = p
            /\ core.stop (core.set_server_thread (Some (core.thread_handle env))
                            (core.set_socket (Some fd)
                               (core.opened fd (core.set_running true p)))) = p).
  { intros fd Hfd. destruct p as [[h po run so th] fds]. cbn in *. subst.
    unfold core.stop, core.set_socket, core.closed, core.set_running, core.opened,
      core.set_server_thread.
    cbn. split; f_equal; apply set_eq; intros x;
      rewrite elem_of_difference, elem_of_union, elem_of_singleton;
      (split; [intros [[->|Hx] Hne]; done|]);
      intros Hx; (split; [by right|]); by intros ->. }
  assert (Hnone : core.stop (core.set_running true p) = p).
  { destruct p as [[h po run so th] fds]. cbn in *. by subst. }
  unfold core.start, try_except_Exception, try_except, bind, lift, modify.
  rewrite Hrun.
  destruct (core.socket_result env) as [fd|e0] eqn:H0.
  2:{ rewrite (Hs e0 eq_refl). by rewrite Hnone. }
  destruct (Hback fd (Hfresh fd eq_refl)) as [Hback1 Hback2].
  destruct (core.setsockopt_result env) as [[]|e1] eqn:H1.
  2:{ rewrite (Ho e1 eq_refl). by rewrite Hback1. }
  destruct (core.bind_result env) as [[]|e2] eqn:H2.
  2:{ rewrite (Hb e2 eq_refl). by rewrite Hback1. }
  destruct (core.listen_result env) as [[]|e3] eqn:H3.
  2:{ rewrite (Hl e3 eq_refl). by rewrite Hback1. }
  destruct (core.thread_start_result env) as [[]|e4] eqn:H4.
  2:{ rewrite (Ht e4 eq_refl). by rewrite Hback2. }
  destruct Hfail as [e [Hf|[Hf|[Hf|[Hf|Hf]]]]]; discriminate.
Qed.

(** X13.  Whichever of its calls fails, [start()] on a server at rest
    returns normally and leaves no trace: the server is as it was and the
    socket it may have opened is closed again. *)
Theorem failed_start_leaves_no_trace env p :
  at_rest p ->
  undisturbed env ->
  (forall fd, core.socket_result env = Return fd -> fd ∉ core.open_sockets p) ->
  (exists e, core.socket_result env = Raise e
             \/ core.setsockopt_result env = Raise e
             \/ core.bind_result env = Raise e
             \/ core.listen_result env = Raise e
             \/ core.thread_start_result env = Raise e) ->
  core.start env p = (Return tt, p).
Proof. apply start_failure_restores. Qed.

End LifecycleFurther.

Section AcceptLoop.

Implicit Types (r : core.accept_round) (l : core.listener).

Lemma serve_calm r l :
  calm (core.a_settimeout r) && calm (core.a_accept r)
  && calm (core.a_client_settimeout r) && calm (core.a_thread_start r) = true ->
  (core.serve r l).1 = Return tt
  /\ core.accepted (core.serve r l).2
     = (core.accepted l ++ option_list (taken r))%list
  /\ core.handed_over (core.serve r l).2
     = (core.handed_over l ++ option_list (served r))%list.
Proof.
  intros Hcalm. repeat (apply andb_prop in Hcalm as [Hcalm ?]).
  unfold core.serve, taken, served, try_except_Exception, try_except, bind, lift,
    modify, ret, core.accept, calm in *.
  destruct (core.a_settimeout r) as [[]|e0]; cbn.
  2:{ rewrite Hcalm. cbn. by rewrite !app_nil_r. }
  destruct (core.a_accept r) as [client|e1]; cbn.
  2:{ destruct (is_socket_timeout e1); cbn; [by rewrite !app_nil_r|].
      match goal with H : is_Exception e1 = true |- _ => rewrite H end.
      cbn. by rewrite !app_nil_r. }
  destruct (core.a_client_settimeout r) as [[]|e2]; cbn.
  2:{ destruct (is_socket_timeout e2); cbn; [by rewrite !app_nil_r|].
      match goal with H : is_Exception e2 = true |- _ => rewrite H end.
      cbn. by rewrite !app_nil_r. }
  destruct (core.a_thread_start r) as [[]|e3]; cbn; [done|].
  destruct (is_socket_timeout e3); cbn; [by rewrite !app_nil_r|].
  match goal with H : is_Exception e3 = true |- _ => rewrite H end.
  cbn. by rewrite !app_nil_r.
Qed.

Lemma omap_cons_option_list {A B} (f : A -> option B) (x : A) (xs : list A) :
  omap f (x :: xs) = (option_list (f x) ++ omap f xs)%list.
Proof. cbn. by destruct (f x). Qed.

(** X14.  The accept loop outlives every error: while the server is
    running, a timeout, a failed accept or a handler thread that does not
    start never ends it.  It starts one handler per client it accepts and
    sets up, in the order of arrival; a client accepted in a turn whose
    thread did not start is handed to no handler. *)
Theorem accept_loop_survives_errors (rounds : list core.accept_round) l :
  forallb calm_round rounds = true ->
  (core._server_loop rounds l).1 = Return core.Accepting
  /\ core.accepted (core._server_loop rounds l).2
     = (core.accepted l ++ omap taken rounds)%list
  /\ core.handed_over (core._server_loop rounds l).2
     = (core.handed_over l ++ omap served rounds)%list.
Proof.
  revert l. induction rounds as [|r rest IH]; intros l Hcalm.
  - cbn. by rewrite !app_nil_r.
  - cbn [forallb] in Hcalm. apply andb_prop in Hcalm as [Hr Hrest].
    unfold calm_round in Hr.
    assert (Hrun : core.a_running r = true).
    { by destruct (core.a_running r). }
    rewrite Hrun in Hr. cbn [andb] in Hr.
    destruct (serve_calm r l Hr) as (Hret & Hacc & Hhand).
    cbn [core._server_loop]. rewrite Hrun. cbn [negb]. unfold bind.
    destruct (core.serve r l) as [[[]|e] l1]; cbn [fst snd] in *; [|discriminate].
    destruct (IH l1 Hrest) as (IHret & IHacc & IHhand).
    split; [exact IHret|].
    rewrite IHacc, IHhand, Hacc, Hhand, !omap_cons_option_list.
    by rewrite <- !app_assoc.
Qed.

(** X15.  The accept loop ends at the first turn that finds the running
    flag cleared, before it touches the socket again: nothing that could
    have been accepted from then on is accepted. *)
Theorem accept_loop_stops_on_flag (before after : list core.accept_round) r l :
  forallb calm_round before = true ->
  core.a_running r = false ->
  core._server_loop (before ++ r :: after) l
  = (Return core.LoopStopped, (core._server_loop before l).2).
Proof.
  intros Hcalm Hstop. revert l.
  induction before as [|a before IH]; intros l.
  - cbn. by rewrite Hstop.
  - cbn [forallb] in Hcalm. apply andb_prop in Hcalm as [Ha Hrest].
    unfold calm_round in Ha.
    assert (Hrun : core.a_running a = true) by (by destruct (core.a_running a)).
    rewrite Hrun in Ha. cbn [andb] in Ha.
    destruct (serve_calm a l Ha) as (Hret & _).
    cbn [app core._server_loop]. rewrite Hrun. cbn [negb]. unfold bind.
    destruct (core.serve a l) as [[[]|e] l1]; cbn [fst] in Hret; [|discriminate].
    by apply IH.
Qed.

End AcceptLoop.

Section PanelOperators.

Implicit Types (b : ui.blender) (env : core.start_env).

Lemma StartServer_first env b (fd : nat) :
  never_started b ->
  succeeds env fd ->
  ui.StartServer_execute env b
  = (Return tt,
     {| ui.core_state :=
          {| core.server_instance :=
               Some {| core.host := "localhost"; core.port := ui.blendermcp_port b;
                       core.running := true; core.socket := Some fd;
                       core.server_thread := Some (core.thread_handle env) |};
             core.sockets := {[ fd ]} ∪ core.sockets (ui.core_state b) |};
        ui.blendermcp_port := ui.blendermcp_port b;
        ui.blendermcp_server_running := true |}).
Proof.
  intros Hnever Hok. unfold ui.StartServer_execute, never_started in *.
  rewrite Hnever. cbn [core.create_server_instance].
  rewrite (start_success env _ fd); [reflexivity| |exact Hok].
  by repeat split.
Qed.

(** X16.  The port of the first start sticks.  Once a server was started,
    stopping it, typing another port into the panel and starting again
    brings the server up on the port of the first start: the instance is
    created once and a later port is not looked at. *)
Theorem first_port_sticks (env1 env2 : core.start_env) b (fd1 fd2 : nat)
    (new_port : Z) :
  never_started b ->
  succeeds env1 fd1 ->
  succeeds env2 fd2 ->
  exists server,
    core.server_instance
      (ui.core_state
         (ui.StartServer_execute env2
            (with_port new_port
               (ui.StopServer_execute (ui.StartServer_execute env1 b).2))).2)
    = Some server
    /\ core.running server = true
    /\ core.port server = ui.blendermcp_port b
    /\ ui.blendermcp_port
         (ui.StartServer_execute env2
            (with_port new_port
               (ui.StopServer_execute (ui.StartServer_execute env1 b).2))).2
       = new_port.
Proof.
  intros Hnever Hok1 Hok2.
  rewrite (StartServer_first env1 b fd1 Hnever Hok1). cbn [snd].
  unfold ui.StopServer_execute, with_port, ui.StartServer_execute.
  cbn -[core.start union difference].
  rewrite (start_success env2 _ fd2); [|by repeat split|exact Hok2].
  eexists. split; [reflexivity|]. by repeat split.
Qed.

(** X17.  When the start fails (the port is taken, say), the operator
    still records the server as running in the scene, while the server is
    at rest, the panel computes that it is not running, and no socket is
    left open. *)
Theorem failed_start_still_flagged env b :
  never_started b ->
  undisturbed env ->
  (forall fd, core.socket_result env = Return fd ->
              fd ∉ core.sockets (ui.core_state b)) ->
  (exists e, core.socket_result env = Raise e
             \/ core.setsockopt_result env = Raise e
             \/ core.bind_result env = Raise e
             \/ core.listen_result env = Raise e
             \/ core.thread_start_result env = Raise e) ->
  (ui.StartServer_execute env b).1 = Return tt
  /\ ui.blendermcp_server_running (ui.StartServer_execute env b).2 = true
  /\ ui.is_running (ui.StartServer_execute env b).2 = false
  /\ core.sockets (ui.core_state (ui.StartServer_execute env b).2)
     = core.sockets (ui.core_state b)
  /\ core.server_instance (ui.core_state (ui.StartServer_execute env b).2)
     = Some (core.__init__ "localhost" (ui.blendermcp_port b)).
Proof.
  intros Hnever Hcalm Hfresh Hfail. unfold ui.StartServer_execute, never_started in *.
  rewrite Hnever. cbn [core.create_server_instance].
  rewrite start_failure_restores; [by repeat split|by repeat split|exact Hcalm| |exact Hfail].
  exact Hfresh.
Qed.

(** X18.  The stop operator clears the scene's flag and leaves the
    instance, if there is one, at rest with its listening socket closed;
    the instance itself stays in place.  Without an instance it only
    clears the flag. *)
Theorem stop_operator_brings_down b :
  ui.blendermcp_server_running (ui.StopServer_execute b) = false
  /\ ui.is_running (ui.StopServer_execute b) = false
  /\ match core.server_instance (ui.core_state b) with
     | Some server =>
         core.server_instance (ui.core_state (ui.StopServer_execute b))
         = Some {| core.host := core.host server; core.port := core.port server;
                   core.running := false; core.socket := None;
                   core.server_thread := None |}
         /\ core.sockets (ui.core_state (ui.StopServer_execute b))
            = match core.socket server with
              | Some fd => core.sockets (ui.core_state b) ∖ {[ fd ]}
              | None => core.sockets (ui.core_state b)
              end
     | None => ui.core_state (ui.StopServer_execute b) = ui.core_state b
     end.
Proof.
  unfold ui.StopServer_execute, ui.is_running, core.get_server_instance.
  cbn [ui.core_state ui.blendermcp_server_running].
  destruct (core.server_instance (ui.core_state b)) as [[h po run [fd|] [t|]]|] eqn:Hi;
    cbn; rewrite ?Hi; done.
Qed.

(** X19.  [create_server_instance] makes the server once: a second call
    returns the server of the first, whatever port it is given.  Only the
    addon's [unregister] lets go of it: it closes the listening socket and
    clears the instance, and the next start operator then builds a server
    on the port the scene holds at that time. *)
Theorem instance_is_made_once (port1 port2 : Z) (g : core.module_state)
    (server : core.BlenderMCPServer) (env : core.start_env) b (fd : nat) :
  core.create_server_instance port2 (core.create_server_instance port1 None).2
  = (core.__init__ "localhost" port1, Some (core.__init__ "localhost" port1))
  /\ (core.server_instance g = Some server ->
      core.server_instance (ui.addon_unregister g) = None
      /\ core.sockets (ui.addon_unregister g)
         = match core.socket server with
           | Some fd => core.sockets g ∖ {[ fd ]}
           | None => core.sockets g
           end)
  /\ (succeeds env fd ->
      exists started,
        core.server_instance
          (ui.core_state
             (ui.StartServer_execute env
                {| ui.core_state := ui.addon_unregister (ui.core_state b);
                   ui.blendermcp_port := port2;
                   ui.blendermcp_server_running := false |}).2)
        = Some started
        /\ core.port started = port2 /\ core.running started = true).
Proof.
  split; [reflexivity|split].
  - intros Hinst. unfold ui.addon_unregister, core.unregister, core.get_server_instance.
    rewrite Hinst. destruct server as [h po run [fd'|] [t|]]; by cbn.
  - intros Hok.
    assert (Hnone : core.server_instance (ui.addon_unregister (ui.core_state b)) = None).
    { unfold ui.addon_unregister, core.unregister, core.get_server_instance.
      destruct (core.server_instance (ui.core_state b)) as [[h po run [fd'|] [t|]]|] eqn:Hi;
        cbn; try done; by rewrite Hi. }
    rewrite (StartServer_first env
               {| ui.core_state := ui.addon_unregister (ui.core_state b);
                  ui.blendermcp_port := port2;
                  ui.blendermcp_server_running := false |} fd Hnone Hok).
    eexists. split; [reflexivity|]. by split.
Qed.

End PanelOperators.

Section HandlerFurther.
Context {World : Type}.
Variable interp_text : fault -> string.
Variable loads : bytes -> outcome pyval.
Variable dumps : pyval -> outcome bytes.

Implicit Types (reg : gmap string (api.entry World)).
Implicit Types (c : core.connection) (r : @core.round World).

Abbreviation handle_buffer' := (core.handle_buffer interp_text loads dumps).
Abbreviation read_loop' := (core.read_loop interp_text loads dumps).

(** One turn of the loop that receives bytes. *)
Lemma read_loop_received reg r (rest : list core.round) c (b : Byte.byte) (data : bytes) :
  core.r_running r = true ->
  core.r_recv r = Return (b :: data) ->
  read_loop' reg (r :: rest) c
  = match handle_buffer' reg r (core.set_buffer (core.buffer c ++ b :: data)%list c) with
    | (Return _, c') => read_loop' reg rest c'
    | (Raise e, c') => (Raise e, c')
    end.
Proof.
  intros Hrun Hrecv. cbn [core.read_loop]. rewrite Hrun. cbn [negb].
  unfold bind at 1. unfold lift at 1. rewrite Hrecv.
  unfold bind at 1. unfold modify at 1. unfold bind at 1.
  by destruct (handle_buffer' reg r _) as [[[]|e] c'].
Qed.

(** X20.  While the bytes received do not yet make a JSON value, the
    handler answers nothing and dispatches nothing; it keeps every byte
    and goes on reading. *)
Theorem incomplete_message_stalls reg (rounds : list core.round) c :
  stalled loads rounds (core.buffer c) = true ->
  read_loop' reg rounds c
  = (Return core.Reading,
     {| core.buffer := (core.buffer c ++ delivered rounds)%list;
        core.outbox := core.outbox c;
        core.client_closed := core.client_closed c;
        core.timers := core.timers c;
        core.submitted := core.submitted c |}).
Proof.
  revert c. induction rounds as [|r rest IH]; intros c Hstalled.
  - cbn. unfold ret, delivered. cbn. rewrite app_nil_r. by destruct c.
  - cbn [stalled] in Hstalled. apply andb_prop in Hstalled as [Hrun Hrest].
    destruct (core.r_recv r) as [[|b data]|e] eqn:Hrecv; try discriminate.
    destruct (loads (core.buffer c ++ b :: data)%list) as [v|e] eqn:Hloads;
      [discriminate|].
    apply andb_prop in Hrest as [Hjson Hrest].
    rewrite (read_loop_received reg r rest c b data Hrun Hrecv).
    unfold core.handle_buffer, try_except, bind, get, lift.
    cbn [core.buffer core.set_buffer]. rewrite Hloads, Hjson. unfold ret.
    rewrite IH by exact Hrest. cbn [core.buffer core.set_buffer].
    unfold delivered. cbn [map concat]. rewrite Hrecv.
    unfold core.set_buffer. cbn. by rewrite <- app_assoc.
Qed.

Lemma execute_command_timers reg (command : pyval) (env : @core.wait_env World)
    (timers : list pyval) :
  core.execute_command interp_text reg command env timers
  = ((core.execute_command interp_text reg command env []).1,
     (timers ++ [command])%list).
Proof. reflexivity. Qed.

(** Turns that each bring one whole message. *)
Lemma read_loop_whole_messages reg (rounds : list core.round) c
    (exchanged : list (pyval * bytes)) :
  core.buffer c = [] ->
  mapM (exchange interp_text loads dumps reg) rounds = Some exchanged ->
  read_loop' reg rounds c
  = (Return core.Reading,
     {| core.buffer := [];
        core.outbox := (core.outbox c ++ exchanged.*2)%list;
        core.client_closed := core.client_closed c;
        core.timers := (core.timers c ++ exchanged.*1)%list;
        core.submitted :=
          (core.submitted c ++ map (fun x => (x.1, [])) exchanged)%list |}).
Proof.
  revert c exchanged. induction rounds as [|r rest IH]; intros c exchanged Hbuf Hall.
  - cbn in Hall. injection Hall as <-. cbn. unfold ret.
    rewrite !app_nil_r. destruct c; cbn in *; by subst.
  - rewrite mapM_Some in Hall. apply Forall2_cons_inv_l in Hall
      as ([command out] & others & Hex & Hothers & ->).
    apply mapM_Some in Hothers.
    unfold exchange in Hex.
    destruct (core.r_running r) eqn:Hrun; [|discriminate].
    destruct (core.r_recv r) as [[|b data]|e] eqn:Hrecv; try discriminate.
    destruct (core.r_sendall r) as [[]|e] eqn:Hsend; [|discriminate].
    destruct (loads (b :: data)) as [cmd|e] eqn:Hloads; [|discriminate].
    destruct (dumps (response_in interp_text reg r cmd)) as [o|e] eqn:Hdumps;
      [|discriminate].
    injection Hex as -> ->.
    rewrite (read_loop_received reg r rest c b data Hrun Hrecv).
    unfold core.handle_buffer, try_except, bind, get, lift, modify, core.submit.
    cbn [core.buffer core.set_buffer]. rewrite Hbuf. cbn [app]. rewrite Hloads.
    rewrite execute_command_timers. fold (response_in interp_text reg r command).
    cbn [core.timers core.set_buffer core.buffer core.outbox core.client_closed
         core.submitted fst snd].
    rewrite Hdumps. unfold core.sendall. rewrite Hsend.
    cbn [core.timers core.buffer core.outbox core.client_closed core.submitted].
    erewrite IH; [|reflexivity|exact Hothers].
    cbn [core.timers core.buffer core.outbox core.client_closed core.submitted
         fmap list_fmap map fst snd].
    by rewrite <- !app_assoc.
Qed.

(** X21.  Messages that arrive whole, one per read, are handled strictly
    in order: each is dispatched with the buffer empty, its job registered
    with the host and its answer written before the next read, so the
    answers leave in the order the commands came. *)
Theorem whole_messages_answered_in_order reg (rounds : list core.round) c
    (exchanged : list (pyval * bytes)) :
  core.buffer c = [] ->
  mapM (exchange interp_text loads dumps reg) rounds = Some exchanged ->
  read_loop' reg rounds c
  = (Return core.Reading,
     {| core.buffer := [];
        core.outbox := (core.outbox c ++ exchanged.*2)%list;
        core.client_closed := core.client_closed c;
        core.timers := (core.timers c ++ exchanged.*1)%list;
        core.submitted :=
          (core.submitted c ++ map (fun x => (x.1, [])) exchanged)%list |}).
Proof. apply read_loop_whole_messages. Qed.

(** X22.  A response that cannot be written does not end the connection
    from the server's side: the command has run, the handler tries to
    write the socket error back as an error envelope, ignores the outcome
    of that write too, and reads on with an empty buffer. *)
Theorem failed_write_keeps_reading reg r (rest : list core.round) c
    (b : Byte.byte) (data out report : bytes) (command : pyval) (e : exn) :
  core.r_running r = true ->
  core.r_recv r = Return (b :: data) ->
  loads (core.buffer c ++ b :: data)%list = Return command ->
  dumps (response_in interp_text reg r command) = Return out ->
  core.r_sendall r = Raise e ->
  is_Exception e = true -> is_JSONDecodeError e = false ->
  dumps (error_envelope (exn_text e)) = Return report ->
  read_loop' reg (r :: rest) c
  = read_loop' reg rest
      {| core.buffer := [];
         core.outbox :=
           match core.r_sendall_error r with
           | Return _ => (core.outbox c ++ [report])%list
           | Raise _ => core.outbox c
           end;
         core.client_closed := core.client_closed c;
         core.timers := (core.timers c ++ [command])%list;
         core.submitted := (core.submitted c ++ [(command, [])])%list |}.
Proof.
  intros Hrun Hrecv Hloads Hdumps Hsend Hexn Hjson Hreport.
  rewrite (read_loop_received reg r rest c b data Hrun Hrecv).
  unfold core.handle_buffer, try_except_pass, try_except, bind, get, lift, modify,
    core.submit.
  cbn [core.buffer core.set_buffer]. rewrite Hloads.
  rewrite execute_command_timers. fold (response_in interp_text reg r command).
  cbn [core.timers core.set_buffer core.buffer core.outbox core.client_closed
       core.submitted fst snd].
  rewrite Hdumps. unfold core.sendall at 1. rewrite Hsend, Hjson, Hexn, Hreport.
  unfold core.sendall, ret.
  by destruct (core.r_sendall_error r) as [[]|e'].
Qed.

(** X23.  Bytes that fail to decode for another reason than incomplete
    JSON (bytes that are not UTF-8, say) are answered with an error
    envelope carrying the failure's text; nothing is dispatched and the
    bytes stay in the buffer, ahead of whatever arrives next. *)
Theorem undecodable_bytes_reported reg r (rest : list core.round) c
    (b : Byte.byte) (data report : bytes) (e : exn) :
  core.r_running r = true ->
  core.r_recv r = Return (b :: data) ->
  loads (core.buffer c ++ b :: data)%list = Raise e ->
  is_Exception e = true -> is_JSONDecodeError e = false ->
  dumps (error_envelope (exn_text e)) = Return report ->
  core.r_sendall_error r = Return tt ->
  read_loop' reg (r :: rest) c
  = read_loop' reg rest
      {| core.buffer := (core.buffer c ++ b :: data)%list;
         core.outbox := (core.outbox c ++ [report])%list;
         core.client_closed := core.client_closed c;
         core.timers := core.timers c;
         core.submitted := core.submitted c |}.
Proof.
  intros Hrun Hrecv Hloads Hexn Hjson Hreport Hsend.
  rewrite (read_loop_received reg r rest c b data Hrun Hrecv).
  unfold core.handle_buffer, try_except_pass, try_except, bind, get, lift.
  cbn [core.buffer core.set_buffer]. rewrite Hloads, Hjson, Hexn, Hreport.
  unfold core.sendall. by rewrite Hsend.
Qed.

End HandlerFurther.

Section ClientFurther.
Variable interp_text : fault -> string.
Variable loads : bytes -> outcome pyval.
Variable dumps : pyval -> outcome bytes.
Variable py_int : string -> outcome Z.

Implicit Types (c : server.BlenderConnection) (env : server.call_env).

Abbreviation receive_full_response' := (server.receive_full_response loads).
Abbreviation send_command' := (server.send_command interp_text loads dumps).

(** A failed attempt to connect. *)
Lemma connect_failure env c (fd : nat) (e : exn) :
  server.sock c = None ->
  server.socket_result env = Raise e
    \/ (server.socket_result env = Return fd /\ server.connect_result env = Raise e) ->
  is_Exception e = true ->
  server.connect env c = (Return false, c).
Proof.
  unfold server.connect, try_except_Exception, try_except, bind, lift, modify, ret.
  intros Hnone [->|[-> ->]] He; rewrite Hnone, He; cbn;
    destruct c; cbn in *; by subst.
Qed.

(** X24.  [connect()]: with a socket already cached nothing is opened and
    the connection is left alone; without one, success caches the new
    socket and returns [True]; a failure to create or to connect the
    socket is swallowed, leaves no socket cached and returns [False]. *)
Theorem connect_outcomes env c (fd : nat) (e : exn) :
  (server.sock c = Some fd -> server.connect env c = (Return true, c))
  /\ (server.sock c = None ->
      server.socket_result env = Return fd ->
      server.connect_result env = Return tt ->
      server.connect env c
      = (Return true,
         {| server.host := server.host c; server.port := server.port c;
            server.sock := Some fd |}))
  /\ (server.sock c = None ->
      server.socket_result env = Raise e
        \/ (server.socket_result env = Return fd /\ server.connect_result env = Raise e) ->
      is_Exception e = true ->
      server.connect env c = (Return false, c)).
Proof.
  split; [|split].
  - unfold server.connect. by intros ->.
  - unfold server.connect, try_except_Exception, try_except, bind, lift, modify, ret.
    intros -> -> ->. reflexivity.
  - apply connect_failure.
Qed.

(** X25.  [disconnect()] always leaves the connection without a socket
    and with its address kept, and an [Exception] from [close()] does not
    get out; on a connection without a socket it does nothing. *)
Theorem disconnect_clears_socket (close_result : outcome unit) c :
  server.sock (server.disconnect close_result c).2 = None
  /\ server.host (server.disconnect close_result c).2 = server.host c
  /\ server.port (server.disconnect close_result c).2 = server.port c
  /\ (calm close_result = true -> (server.disconnect close_result c).1 = Return tt)
  /\ (server.sock c = None -> server.disconnect close_result c = (Return tt, c)).
Proof.
  unfold server.disconnect, try_except_Exception, try_except, lift, ret, calm.
  destruct (server.sock c) as [fd|] eqn:Hsock.
  - destruct close_result as [[]|e]; cbn; [by repeat split|].
    destruct (is_Exception e); cbn; by repeat split.
  - by repeat split.
Qed.

(** X26.  [send_command] on a connection without a socket first connects;
    when that fails it raises [ConnectionError] with the text "Not
    connected to Blender" and nothing is sent or received. *)
Theorem send_without_connection env (command_type : string) (params : pyval) c
    (fd : nat) (e : exn) :
  server.sock c = None ->
  server.socket_result env = Raise e
    \/ (server.socket_result env = Return fd /\ server.connect_result env = Raise e) ->
  is_Exception e = true ->
  send_command' env command_type params c
  = (Raise (Exn ConnectionError "Not connected to Blender"), c).
Proof.
  intros Hnone Hfail He.
  unfold server.send_command. unfold bind at 1. rewrite Hnone.
  by rewrite (connect_failure env c fd e Hnone Hfail He).
Qed.

Lemma send_command_received env (command_type : string) (params : pyval) c (fd : nat)
    (data response_data : bytes) (response : pyval) :
  server.sock c = Some fd ->
  dumps (server.command_of command_type params) = Return data ->
  server.sendall_result env = Return tt ->
  receive_full_response' (server.recvs env) [] = Some (Return response_data) ->
  loads response_data = Return response ->
  send_command' env command_type params c
  = match response with
    | PDict kv =>
        (Return
           (Some (if eq_str (default PNone (dict_lookup "status" kv)) "error"
                  then PDict [("error",
                               default (PStr "Unknown error") (dict_lookup "message" kv))]
                  else default (PDict []) (dict_lookup "result" kv))), c)
    | _ =>
        (Raise (Exn PlainException
                  ("Communication error with Blender: "
                   +:+ interp_text (NoAttribute (type_name response) "get"))),
         server.set_sock None c)
    end.
Proof.
  intros Hsock Hdumps Hsend Hrecv Hloads.
  unfold server.send_command, try_except. unfold bind at 1. rewrite Hsock. cbn [negb].
  cbv zeta.
  unfold bind at 1. unfold lift at 1. rewrite Hdumps.
  unfold bind at 1. unfold lift at 1. rewrite Hsend, Hrecv.
  unfold bind at 1. unfold lift at 1.
  unfold bind at 1. unfold lift at 1. rewrite Hloads.
  unfold bind at 1. unfold lift at 1.
  destruct response; try reflexivity.
  cbn [py_get]. destruct (eq_str _ "error"); reflexivity.
Qed.

(** X27.  How [send_command] reads the response: an object with status
    "error" is returned, not raised, as an object with the one key "error"
    (the message, or "Unknown error" without one); any other object
    yields its result, or the empty object without one; in both cases the
    socket stays cached.  A response that is valid JSON but not an object
    is raised as a communication error and the socket is dropped. *)
Theorem response_is_unwrapped env (command_type : string) (params : pyval) c (fd : nat)
    (data response_data : bytes) (response : pyval) :
  server.sock c = Some fd ->
  dumps (server.command_of command_type params) = Return data ->
  server.sendall_result env = Return tt ->
  receive_full_response' (server.recvs env) [] = Some (Return response_data) ->
  loads response_data = Return response ->
  send_command' env command_type params c
  = match response with
    | PDict kv =>
        (Return
           (Some (if eq_str (default PNone (dict_lookup "status" kv)) "error"
                  then PDict [("error",
                               default (PStr "Unknown error") (dict_lookup "message" kv))]
                  else default (PDict []) (dict_lookup "result" kv))), c)
    | _ =>
        (Raise (Exn PlainException
                  ("Communication error with Blender: "
                   +:+ interp_text (NoAttribute (type_name response) "get"))),
         {| server.host := server.host c; server.port := server.port c;
            server.sock := None |})
    end.
Proof. apply send_command_received. Qed.

(** X28.  [receive_full_response] returns the bytes received, joined in
    order, as soon as they parse as JSON, and does not read further; when
    the peer closes first it returns what has arrived; until either
    happens it goes on receiving. *)
Theorem receive_joins_chunks (chunks : list bytes) (last : bytes)
    (rest : list (outcome bytes)) (buffer : bytes) (v : pyval) :
  server.incomplete loads chunks buffer = true ->
  (last ≠ [] ->
   loads (buffer ++ concat chunks ++ last)%list = Return v ->
   receive_full_response' (map Return chunks ++ Return last :: rest)%list buffer
   = Some (Return (buffer ++ concat chunks ++ last)%list))
  /\ receive_full_response' (map Return chunks ++ Return [] :: rest)%list buffer
     = Some (Return (buffer ++ concat chunks)%list)
  /\ receive_full_response' (map Return chunks) buffer = None.
Proof.
  intros Hinc. split; [|split].
  - intros Hlast Hloads. rewrite receive_incomplete by exact Hinc.
    destruct last as [|b last]; [done|].
    cbn [server.receive_full_response]. rewrite <- app_assoc, Hloads.
    reflexivity.
  - by rewrite receive_incomplete by exact Hinc.
  - rewrite <- (app_nil_r (map Return chunks)).
    by rewrite receive_incomplete by exact Hinc.
Qed.

(** X29.  [get_blender_connection]: the first call builds the connection
    from the environment (port 9876 and host localhost unless set),
    connects it and caches it; later calls return the cached connection
    without touching the network or the environment; a failed connect
    caches nothing and raises, so that the next call tries again. *)
Theorem connection_is_cached env env' (vars vars' : server.environ) (port : Z)
    (fd : nat) (e : exn) :
  py_int (default "9876" (server.BLENDER_MCP_PORT vars)) = Return port ->
  (server.socket_result env = Return fd ->
   server.connect_result env = Return tt ->
   exists c,
     c = {| server.host := default "localhost" (server.BLENDER_MCP_HOST vars);
            server.port := port; server.sock := Some fd |}
     /\ server.get_blender_connection py_int env vars None = (Return c, Some c)
     /\ server.get_blender_connection py_int env' vars' (Some c) = (Return c, Some c))
  /\ (server.socket_result env = Raise e
        \/ (server.socket_result env = Return fd /\ server.connect_result env = Raise e) ->
      is_Exception e = true ->
      server.get_blender_connection py_int env vars None
      = (Raise server.could_not_connect, None)).
Proof.
  intros Hport. split.
  - intros Hs Hc. eexists. split; [reflexivity|].
    unfold server.get_blender_connection. rewrite Hport.
    unfold server.connect, try_except_Exception, try_except, bind, lift, modify, ret.
    cbn. by rewrite Hs, Hc.
  - intros Hfail He.
    unfold server.get_blender_connection. rewrite Hport.
    by rewrite (connect_failure env
                  {| server.host := default "localhost" (server.BLENDER_MCP_HOST vars);
                     server.port := port; server.sock := None |} fd e eq_refl Hfail He).
Qed.

End ClientFurther.

Section EndToEnd.
Context {World : Type}.
Variable interp_text : fault -> string.
Variable loads : bytes -> outcome pyval.
Variable dumps : pyval -> outcome bytes.

(** X30.  A call across the whole bridge.  The client sends a command
    for a registered handler; the server reads it in one piece, the host
    has run the job by the time the submitter looks, and the answer comes
    back in one piece.  Provided the codec reads back what it wrote, the
    server writes exactly the success envelope around the handler's
    result and [send_command] returns that result, with the connection
    kept. *)
Theorem call_crosses_the_bridge (reg : gmap string (api.entry World))
    (name : string) (h : api.handler World) (kv : pydict) (result : pyval)
    (w w' : World) (t : Z) (r : @core.round World) (c : core.connection)
    (env : server.call_env) (conn : server.BlenderConnection) (fd : nat)
    (b b' : Byte.byte) (request reply : bytes) :
  name ≠ "ping" ->
  api.get_command reg name = Some h ->
  api.h_call h kv w = (Return result, w') ->
  dumps (server.command_of name (PDict kv)) = Return (b :: request) ->
  loads (b :: request) = Return (server.command_of name (PDict kv)) ->
  dumps (success_envelope result) = Return (b' :: reply) ->
  loads (b' :: reply) = Return (success_envelope result) ->
  core.buffer c = [] ->
  core.r_running r = true ->
  core.r_recv r = Return (b :: request) ->
  core.fired (core.r_wait r) = Some (t, w) ->
  t <= core.start_time (core.r_wait r) ->
  core.r_sendall r = Return tt ->
  server.sock conn = Some fd ->
  server.sendall_result env = Return tt ->
  server.recvs env = [Return (b' :: reply)] ->
  core.outbox (core.read_loop interp_text loads dumps reg [r] c).2
  = (core.outbox c ++ [b' :: reply])%list
  /\ server.send_command interp_text loads dumps env name (PDict kv) conn
     = (Return (Some result), conn).
Proof.
  intros Hping Hget Hcall Hreq Hreq' Hrep Hrep' Hbuf Hrun Hrecv Hfired Ht Hsend
    Hsock Hsendall Hrecvs.
  assert (Hcommand : server.command_of name (PDict kv)
                     = PDict [("type", PStr name); ("params", PDict kv)]).
  { unfold server.command_of. by destruct kv. }
  assert (Hresponse :
            response_in interp_text reg r (server.command_of name (PDict kv))
            = success_envelope result).
  { unfold response_in, core.execute_command. cbn [fst].
    rewrite wait_step.
    rewrite (container_at_fired interp_text reg _ _ _ t w Hfired Ht).
    rewrite command_executor_done, command_executor_result, Hcommand.
    rewrite (command_passed_to_dispatcher interp_text reg name (PDict kv) w Hping).
    rewrite (execute_command_found interp_text reg name h kv w Hget), Hcall.
    reflexivity. }
  split.
  - rewrite (read_loop_whole_messages interp_text loads dumps reg [r] c
               [(server.command_of name (PDict kv), b' :: reply)] Hbuf).
    + reflexivity.
    + cbn. unfold exchange. by rewrite Hrun, Hrecv, Hsend, Hreq', Hresponse, Hrep.
  - rewrite (send_command_received interp_text loads dumps env name (PDict kv) conn fd
               (b :: request) (b' :: reply) (success_envelope result)
               Hsock Hreq Hsendall).
    + reflexivity.
    + rewrite Hrecvs. cbn. by rewrite Hrep'.
    + exact Hrep'.
Qed.

End EndToEnd.

(** * The properties at the worked instances *)

Example sample_ping :
  commands.execute_command sample_text sample_registry (PStr "ping") (PDict []) tt
  = (Return (success_envelope (PStr "pong")), tt).
Proof. vm_compute. reflexivity. Qed.

Example sample_missing :
  core._execute_command_internal sample_text sample_registry
    (PDict [("type", PStr "missing_cmd"); ("params", PDict [])]) tt
  = (Return (error_envelope "Unknown command type: missing_cmd"), tt).
Proof. vm_compute. reflexivity. Qed.

Example sample_loads_empty_object : sample_loads (utf8 "{}") = Return (PDict []).
Proof. vm_compute. reflexivity. Qed.

Example sample_loads_incomplete :
  sample_loads (utf8 "{") = Raise (Exn JSONDecodeError "Expecting value").
Proof. vm_compute. reflexivity. Qed.

Example sample_session :
  core._handle_client sample_text sample_loads sample_dumps sample_registry
    ping_session (core.new_connection [])
  = (Return core.Exited,
     {| core.buffer := [];
        core.outbox := [utf8 (dump (success_envelope (PStr "pong")))];
        core.client_closed := true;
        core.timers := [PDict [("type", PStr "ping"); ("params", PDict [])]];
        core.submitted := [(PDict [("type", PStr "ping"); ("params", PDict [])], [])] |}).
Proof. vm_compute. reflexivity. Qed.

(** The registered ping handler, called with no arguments. *)
Lemma registered_command_returns_success_witness :
  commands.execute_command sample_text sample_registry (PStr "ping") (PDict []) tt
  = (Return (PDict [("status", PStr "success"); ("result", PStr "pong")]), tt).
Proof.
  apply (registered_command_returns_success sample_text sample_registry "ping"
           ping_entry [] (PStr "pong") tt tt).
  - vm_compute. reflexivity.
  - reflexivity.
Defined.

(** A name the sample registry does not hold. *)
Lemma unregistered_command_returns_unknown_witness :
  commands.execute_command sample_text sample_registry (PStr "missing_cmd") (PDict []) tt
  = (Return (PDict [("status", PStr "error");
                    ("message", PStr "Unknown command type: missing_cmd")]), tt).
Proof.
  apply (unregistered_command_returns_unknown sample_text sample_registry
           "missing_cmd" (PDict []) tt).
  vm_compute. reflexivity.
Defined.



(** Two registrations under the name ping, and a name never registered. *)
Lemma last_registration_wins_witness :
  api.get_command
    (api.register_command "ping" None failing_handler
       (api.register_command "ping" (Some "Simple ping test") ping_handler ∅)) "ping"
  = Some failing_handler
  /\ api.get_command sample_registry "list_commands" = None.
Proof.
  pose proof (last_registration_wins (∅ : gmap string (api.entry unit)) "ping"
                (Some "Simple ping test") None ping_handler failing_handler [])
    as (Hlast & _ & _).
  pose proof (last_registration_wins (∅ : gmap string (api.entry unit)) "list_commands"
                None None ping_handler ping_handler
                [("ping", Some "Simple ping test", ping_handler);
                 ("fail", None, failing_handler);
                 ("quit", None, quit_handler)])
    as (_ & _ & Habsent).
  split; [exact Hlast|].
  apply Habsent. cbn. rewrite !not_elem_of_cons. repeat split; try discriminate.
  apply not_elem_of_nil.
Defined.



(** A host that runs the job after 25 ms, one that runs it after 30.005 s,
    one that never does, and one that runs it after 29.998 s while every
    sleep lasts 11 ms. *)
Lemma wait_contract_witness :
  (core.execute_command sample_text sample_registry ping_command prompt_host []).1
  = success_envelope (PStr "pong")
  /\ (core.execute_command sample_text sample_registry ping_command prompt_host []).2
     = [ping_command]
  /\ (core.execute_command sample_text sample_registry ping_command late_host []).1
     = error_envelope "Command execution timed out"
  /\ (core.execute_command sample_text sample_registry ping_command absent_host []).1
     = error_envelope "Command execution timed out"
  /\ (core.execute_command sample_text sample_registry ping_command jittery_host []).1
     = error_envelope "Command execution timed out".
Proof.
  pose proof (wait_contract sample_text sample_registry ping_command prompt_host [])
    as (Htimers & _ & _ & Hseen & Hexact & _).
  pose proof (wait_contract sample_text sample_registry ping_command late_host [])
    as (_ & _ & _ & _ & _ & Hlate & _).
  pose proof (wait_contract sample_text sample_registry ping_command absent_host [])
    as (_ & _ & _ & _ & _ & Habsent & _).
  pose proof (wait_contract sample_text sample_registry ping_command jittery_host [])
    as (_ & _ & _ & _ & _ & _ & Hmissed).
  split; [|split; [exact Htimers|split; [|split]]].
  - etransitivity; [apply (Hseen 3%nat 1025 tt);
                   [reflexivity|vm_compute; discriminate|vm_compute; reflexivity]|].
    vm_compute. reflexivity.
  - apply Hlate. cbn. lia.
  - apply Habsent. exact I.
  - apply (Hmissed 2727%nat 30998 tt); [reflexivity|vm_compute; reflexivity..].
Defined.

(** C4 as the specification words it fails on the code: a flag set within
    30 s of the start does not always give the stored result.  With sleeps
    that last 11 ms the submitter tests the flag 29.997 s after the start,
    the job completes 1 ms later, and the next reading of the clock, at
    30.008 s, ends the wait with the timeout envelope. *)
Lemma flag_set_in_time_is_missed :
  core.fired jittery_host = Some (30998, tt)
  /\ 30998 <= core.start_time jittery_host + 30000
  /\ (core.execute_command sample_text sample_registry ping_command jittery_host []).1
     = error_envelope "Command execution timed out"
  /\ (core.execute_command sample_text sample_registry ping_command jittery_host []).1
     ≠ core.result
         (core.command_executor sample_text sample_registry ping_command
            core.new_container tt).1.
Proof.
  assert (Hmissed :
    (core.execute_command sample_text sample_registry ping_command jittery_host []).1
    = error_envelope "Command execution timed out").
  { apply (wait_missed sample_text sample_registry ping_command jittery_host 30998 tt
             2727 2727 0); [reflexivity|vm_compute; reflexivity..|reflexivity]. }
  split; [reflexivity|]. split; [cbn; lia|]. split; [exact Hmissed|].
  rewrite Hmissed. vm_compute. discriminate.
Qed.

(** A buffer holding the whole ping command, and one holding its first
    nine bytes. *)
Lemma buffer_cleared_before_dispatch_witness :
  (core.buffer (core.handle_buffer sample_text sample_loads sample_dumps sample_registry
                  (received []) (holding ping_bytes)).2 = []
   /\ core.submitted (core.handle_buffer sample_text sample_loads sample_dumps
                        sample_registry (received []) (holding ping_bytes)).2
      = [(ping_command, [])])
  /\ core.buffer (core.handle_buffer sample_text sample_loads sample_dumps sample_registry
                    (received []) (holding (take 9 ping_bytes))).2
     = take 9 ping_bytes
  /\ core.buffer (core.read_loop sample_text sample_loads sample_dumps sample_registry
                    [received (drop 9 ping_bytes)] (holding (take 9 ping_bytes))).2
     = [].
Proof.
  pose proof (buffer_cleared_before_dispatch sample_text sample_loads sample_dumps
                sample_registry (received []) [] (holding ping_bytes) [] [])
    as (Hparsed & _ & _ & _).
  pose proof (buffer_cleared_before_dispatch sample_text sample_loads sample_dumps
                sample_registry (received []) [] (holding (take 9 ping_bytes)) [] [])
    as (_ & Hunparsed & _ & _).
  pose proof (buffer_cleared_before_dispatch sample_text sample_loads sample_dumps
                sample_registry (received (drop 9 ping_bytes)) []
                (holding (take 9 ping_bytes)) [] (drop 9 ping_bytes))
    as (_ & _ & Hround & _).
  split; [|split].
  - apply (Hparsed ping_command). vm_compute. reflexivity.
  - apply (Hunparsed (Exn JSONDecodeError "Expecting value")). vm_compute. reflexivity.
  - etransitivity; [apply Hround|].
    + reflexivity.
    + reflexivity.
    + vm_compute. discriminate.
    + vm_compute. reflexivity.
Defined.

(** The session that ends with a read of zero bytes. *)
Lemma handler_exit_closes_socket_witness :
  (core._handle_client sample_text sample_loads sample_dumps sample_registry
     ping_session (core.new_connection [])).1 ≠ Return core.Reading
  /\ core.client_closed
       (core._handle_client sample_text sample_loads sample_dumps sample_registry
          ping_session (core.new_connection [])).2 = true.
Proof.
  pose proof (handler_exit_closes_socket sample_text sample_loads sample_dumps
                sample_registry ping_session
                [received (take 9 ping_bytes); received (drop 9 ping_bytes)] []
                (received []) (core.new_connection []))
    as (_ & Hleft & _).
  apply Hleft. right. left. reflexivity.
Defined.

(** A fresh server whose port is bound by another process. *)
Lemma failed_start_returns_to_stopped_witness :
  core.start bound_elsewhere fresh_process = (Return tt, fresh_process).
Proof.
  pose proof (failed_start_returns_to_stopped bound_elsewhere fresh_process 3%nat
                (Exn OSError "[Errno 98] Address already in use")
                eq_refl eq_refl eq_refl (or_introl eq_refl) eq_refl)
    as (Hreturn & _ & _ & Hsame).
  rewrite (surjective_pairing (core.start bound_elsewhere fresh_process)).
  rewrite Hreturn, Hsame; [reflexivity|reflexivity|reflexivity|].
  apply not_elem_of_empty.
Defined.

(** A broken pipe on send, a timeout and a hang-up in mid-response, and the
    reconnection that follows. *)
Lemma socket_error_clears_connection_witness :
  server.send_command sample_text sample_loads sample_dumps send_fails "ping" PNone cached
  = (Raise (Exn PlainException "Connection to Blender lost: [Errno 32] Broken pipe"),
     {| server.host := "localhost"; server.port := 9876; server.sock := None |})
  /\ server.send_command sample_text sample_loads sample_dumps
       (answers [Return (utf8 "{"); Raise timed_out]) "ping" PNone cached
     = (Raise (Exn PlainException
                 "Communication error with Blender: Timeout while receiving data from Blender"),
        {| server.host := "localhost"; server.port := 9876; server.sock := None |})
  /\ server.send_command sample_text sample_loads sample_dumps
       (answers [Return (utf8 "{"); Return []]) "ping" PNone cached
     = (Raise (Exn PlainException "Invalid response from Blender: Expecting value"), cached)
  /\ server.connect (answers [])
       {| server.host := "localhost"; server.port := 9876; server.sock := None |}
     = (Return true,
        {| server.host := "localhost"; server.port := 9876; server.sock := Some 4%nat |}).
Proof.
  pose proof (socket_error_clears_connection sample_text sample_loads sample_dumps
                send_fails (answers []) "ping" PNone cached 3%nat 4%nat ping_bytes
                broken_pipe [] [] eq_refl eq_refl)
    as (Hsend & _ & _ & _ & _ & Hreconnect).
  pose proof (socket_error_clears_connection sample_text sample_loads sample_dumps
                (answers [Return (utf8 "{"); Raise timed_out]) (answers []) "ping" PNone
                cached 3%nat 4%nat ping_bytes timed_out [utf8 "{"] [] eq_refl eq_refl)
    as (_ & _ & Htimeout & _).
  pose proof (socket_error_clears_connection sample_text sample_loads sample_dumps
                (answers [Return (utf8 "{"); Return []]) (answers []) "ping" PNone
                cached 3%nat 4%nat ping_bytes (Exn JSONDecodeError "Expecting value")
                [utf8 "{"] [] eq_refl eq_refl)
    as (_ & _ & _ & Hinvalid & _).
  split; [apply Hsend; reflexivity|].
  split; [apply Htimeout; reflexivity|].
  split; [apply Hinvalid; reflexivity|].
  apply Hreconnect; reflexivity.
Defined.

(** * The further properties at instances *)

(** A docstring stands in for a missing description, and the listing
    counts names. *)
Example sample_listing :
  system.list_commands
    (register_all_ordered
       [("ping", Some "Simple ping test", ping_handler);
        ("fail", None, failing_handler);
        ("ping", None, ping_handler)] [])
  = PDict [("commands",
            PList [PDict [("name", PStr "ping");
                          ("description", PStr "Simple connectivity test.")];
                   PDict [("name", PStr "fail");
                          ("description", PStr "No description provided")]]);
           ("count", PInt 2)].
Proof. vm_compute. reflexivity. Qed.

(** Params given as a list. *)
Lemma params_must_be_a_mapping_witness :
  commands.execute_command sample_text sample_registry (PStr "ping") (PList [PInt 1]) tt
  = (Return (error_envelope
               "blender_addon.api.code.ping() argument after ** must be a mapping, not list"),
     tt).
Proof.
  pose proof (params_must_be_a_mapping sample_text sample_registry "ping" ping_handler
                (PList [PInt 1]) tt) as Hthm.
  destruct Hthm as [_ Hbad]; [vm_compute; reflexivity|].
  apply Hbad; discriminate.
Defined.

(** A number and a list as command type. *)
Lemma command_type_must_be_a_string_witness :
  commands.execute_command sample_text sample_registry (PInt 42) (PDict []) tt
  = (Return (error_envelope "Unknown command type: 42"), tt)
  /\ commands.execute_command sample_text sample_registry (PList []) (PDict []) tt
     = (Return (error_envelope "unhashable type: 'list'"), tt).
Proof.
  split.
  - apply (command_type_must_be_a_string sample_text sample_registry (PInt 42)).
    discriminate.
  - apply (command_type_must_be_a_string sample_text sample_registry (PList [])).
    discriminate.
Defined.

(** A command that is a list. *)
Lemma non_object_command_rejected_witness :
  core._execute_command_internal sample_text sample_registry (PList []) tt
  = (Return (error_envelope "'list' object has no attribute 'get'"), tt).
Proof.
  apply (non_object_command_rejected sample_text sample_registry (PList []) tt).
  discriminate.
Defined.

(** The ping under a registry that gives the name to a failing handler. *)
Lemma ping_bypasses_registry_witness :
  core._execute_command_internal sample_text shadowed_registry
    (PDict [("type", PStr "ping"); ("params", PList [])]) tt
  = (Return (success_envelope (PStr "pong")), tt)
  /\ commands.execute_command sample_text shadowed_registry (PStr "ping") (PDict []) tt
     = (Return (error_envelope "boom"), tt).
Proof.
  apply (ping_bypasses_registry sample_text shadowed_registry failing_handler
           [("type", PStr "ping"); ("params", PList [])] [] tt).
  - reflexivity.
  - vm_compute. reflexivity.
Defined.

(** Sleeps that last 15 ms each. *)
Lemma wait_is_bounded_witness :
  ((core.wait_log sample_text sample_registry ping_command sluggish_host 0 1000).1.2
   <= 3001)%nat
  /\ (core.wait_log sample_text sample_registry ping_command sluggish_host 0 1000).2
     <= 31015.
Proof.
  pose proof (wait_is_bounded sample_text sample_registry ping_command sluggish_host [] 5)
    as Hthm.
  destruct Hthm as (_ & Hsleeps & Hclock & _); [intros k; cbn; lia|].
  split; [exact Hsleeps|exact Hclock].
Defined.

(** A job done 10 ms before the submitter looks. *)
Lemma completed_job_returns_at_once_witness :
  core.wait_log sample_text sample_registry ping_command eager_host 0 1000
  = (success_envelope (PStr "pong"), 0%nat, 1000).
Proof.
  pose proof (completed_job_returns_at_once sample_text sample_registry ping_command
                eager_host [] 990 tt eq_refl) as Hthm.
  destruct Hthm as [_ Hlog]; [cbn; lia|].
  etransitivity; [exact Hlog|]. vm_compute. reflexivity.
Defined.

(** The first start of a fresh server on a free port. *)
Lemma start_brings_server_up_witness :
  (core.start port_free fresh_process).1 = Return tt
  /\ core.self (core.start port_free fresh_process).2
     = {| core.host := "localhost"; core.port := 9876; core.running := true;
          core.socket := Some 3%nat; core.server_thread := Some 1%nat |}
  /\ core.open_sockets (core.start port_free fresh_process).2
     = {[ 3%nat ]} ∪ core.open_sockets fresh_process.
Proof.
  apply (start_brings_server_up port_free fresh_process 3); try reflexivity.
  repeat split.
Defined.

(** Start and stop of a fresh server on a free port. *)
Lemma start_then_stop_restores_witness :
  core.stop (core.start port_free fresh_process).2 = fresh_process.
Proof.
  apply (start_then_stop_restores port_free fresh_process 3); try reflexivity.
  - repeat split.
  - cbn. apply not_elem_of_empty.
Defined.

(** A start that gets no thread, after socket, bind and listen went well. *)
Lemma failed_start_leaves_no_trace_witness :
  core.start no_thread_left fresh_process = (Return tt, fresh_process).
Proof.
  apply (failed_start_leaves_no_trace no_thread_left fresh_process).
  - repeat split.
  - repeat split; intros e He; cbn in He; try discriminate He.
    injection He as <-. reflexivity.
  - intros fd _. cbn. apply not_elem_of_empty.
  - eexists. do 4 right. reflexivity.
Defined.

(** Five turns: two quiet, a failed accept, a client served, a client
    accepted whose thread does not start. *)
Lemma accept_loop_survives_errors_witness :
  (core._server_loop
     [nobody_calls; accept_fails; arrival 7; nobody_calls; arrival_unserved 8]
     core.new_listener).1 = Return core.Accepting
  /\ core.accepted
       (core._server_loop
          [nobody_calls; accept_fails; arrival 7; nobody_calls; arrival_unserved 8]
          core.new_listener).2 = [7%nat; 8%nat]
  /\ core.handed_over
       (core._server_loop
          [nobody_calls; accept_fails; arrival 7; nobody_calls; arrival_unserved 8]
          core.new_listener).2 = [7%nat].
Proof.
  apply (accept_loop_survives_errors
           [nobody_calls; accept_fails; arrival 7; nobody_calls; arrival_unserved 8]
           core.new_listener).
  reflexivity.
Defined.

(** The server is stopped after one client; a later client is not taken. *)
Lemma accept_loop_stops_on_flag_witness :
  core._server_loop ([arrival 7; nobody_calls] ++ stopped_meanwhile :: [arrival 8])
    core.new_listener
  = (Return core.LoopStopped,
     (core._server_loop [arrival 7; nobody_calls] core.new_listener).2)
  /\ core.accepted (core._server_loop [arrival 7; nobody_calls] core.new_listener).2
     = [7%nat].
Proof.
  split.
  - apply (accept_loop_stops_on_flag [arrival 7; nobody_calls] [arrival 8]
             stopped_meanwhile core.new_listener); reflexivity.
  - reflexivity.
Defined.

(** Started on 9876, stopped, the panel set to 9999, started again. *)
Lemma first_port_sticks_witness :
  exists server,
    core.server_instance
      (ui.core_state
         (ui.StartServer_execute port_free
            (with_port 9999
               (ui.StopServer_execute
                  (ui.StartServer_execute port_free fresh_blender).2))).2)
    = Some server
    /\ core.running server = true
    /\ core.port server = 9876
    /\ ui.blendermcp_port
         (ui.StartServer_execute port_free
            (with_port 9999
               (ui.StopServer_execute
                  (ui.StartServer_execute port_free fresh_blender).2))).2
       = 9999.
Proof.
  apply (first_port_sticks port_free port_free fresh_blender 3 3 9999).
  - reflexivity.
  - repeat split.
  - repeat split.
Defined.

(** The port is taken by another program. *)
Lemma failed_start_still_flagged_witness :
  (ui.StartServer_execute bound_elsewhere fresh_blender).1 = Return tt
  /\ ui.blendermcp_server_running
       (ui.StartServer_execute bound_elsewhere fresh_blender).2 = true
  /\ ui.is_running (ui.StartServer_execute bound_elsewhere fresh_blender).2 = false
  /\ core.sockets (ui.core_state (ui.StartServer_execute bound_elsewhere fresh_blender).2)
     = ∅
  /\ core.server_instance
       (ui.core_state (ui.StartServer_execute bound_elsewhere fresh_blender).2)
     = Some (core.__init__ "localhost" 9876).
Proof.
  apply (failed_start_still_flagged bound_elsewhere fresh_blender).
  - reflexivity.
  - repeat split; intros e He; cbn in He; try discriminate He.
    injection He as <-. reflexivity.
  - intros fd _. cbn. apply not_elem_of_empty.
  - eexists. right. right. left. reflexivity.
Defined.

(** The addon is disabled and enabled again, and the server started on
    another port. *)
Lemma instance_is_made_once_witness :
  exists started,
    core.server_instance
      (ui.core_state
         (ui.StartServer_execute port_free
            {| ui.core_state :=
                 ui.addon_unregister
                   (ui.core_state (ui.StartServer_execute port_free fresh_blender).2);
               ui.blendermcp_port := 9999;
               ui.blendermcp_server_running := false |}).2)
    = Some started
    /\ core.port started = 9999 /\ core.running started = true.
Proof.
  pose proof (instance_is_made_once 9876 9999
                (ui.core_state (ui.StartServer_execute port_free fresh_blender).2)
                (core.__init__ "localhost" 9876) port_free
                (ui.StartServer_execute port_free fresh_blender).2 3) as Hthm.
  destruct Hthm as (_ & _ & Hagain).
  apply Hagain. repeat split.
Defined.

(** The first 14 bytes of a ping, in two pieces. *)
Lemma incomplete_message_stalls_witness :
  core.read_loop sample_text sample_loads sample_dumps sample_registry
    [received (take 9 ping_bytes); received (take 5 (drop 9 ping_bytes))]
    (core.new_connection [])
  = (Return core.Reading,
     {| core.buffer := take 14 ping_bytes; core.outbox := [];
        core.client_closed := false; core.timers := []; core.submitted := [] |}).
Proof.
  etransitivity.
  - apply (incomplete_message_stalls sample_text sample_loads sample_dumps
             sample_registry
             [received (take 9 ping_bytes); received (take 5 (drop 9 ping_bytes))]
             (core.new_connection [])).
    vm_compute. reflexivity.
  - vm_compute. reflexivity.
Defined.

(** A ping and a failing command, each received whole. *)
Lemma whole_messages_answered_in_order_witness :
  core.read_loop sample_text sample_loads sample_dumps sample_registry
    [received ping_bytes; received fail_bytes] (core.new_connection [])
  = (Return core.Reading,
     {| core.buffer := [];
        core.outbox := [utf8 (dump (success_envelope (PStr "pong")));
                        utf8 (dump (error_envelope "boom"))];
        core.client_closed := false;
        core.timers := [ping_command;
                        PDict [("type", PStr "fail"); ("params", PDict [])]];
        core.submitted := [(ping_command, []);
                           (PDict [("type", PStr "fail"); ("params", PDict [])], [])] |}).
Proof.
  etransitivity.
  - apply (whole_messages_answered_in_order sample_text sample_loads sample_dumps
             sample_registry [received ping_bytes; received fail_bytes]
             (core.new_connection [])
             [(ping_command, utf8 (dump (success_envelope (PStr "pong"))));
              (PDict [("type", PStr "fail"); ("params", PDict [])],
               utf8 (dump (error_envelope "boom")))]).
    + reflexivity.
    + vm_compute. reflexivity.
  - vm_compute. reflexivity.
Defined.

(** The client hangs up before the pong is written; the next ping of the
    session is still read and answered. *)
Lemma failed_write_keeps_reading_witness :
  core.read_loop sample_text sample_loads sample_dumps sample_registry
    [unanswerable ping_bytes; received ping_bytes] (core.new_connection [])
  = (Return core.Reading,
     {| core.buffer := [];
        core.outbox := [utf8 (dump (success_envelope (PStr "pong")))];
        core.client_closed := false;
        core.timers := [ping_command; ping_command];
        core.submitted := [(ping_command, []); (ping_command, [])] |}).
Proof.
  etransitivity.
  - apply (failed_write_keeps_reading sample_text sample_loads sample_dumps
             sample_registry (unanswerable ping_bytes) [received ping_bytes]
             (core.new_connection []) (hd Byte.x00 ping_bytes) (tl ping_bytes)
             (utf8 (dump (success_envelope (PStr "pong"))))
             (utf8 (dump (error_envelope "[Errno 32] Broken pipe")))
             ping_command broken_pipe);
      vm_compute; reflexivity.
  - vm_compute. reflexivity.
Defined.

(** A byte that is not UTF-8. *)
Lemma undecodable_bytes_reported_witness :
  core.read_loop sample_text sample_loads sample_dumps sample_registry
    [received [Byte.xff]] (core.new_connection [])
  = (Return core.Reading,
     {| core.buffer := [Byte.xff];
        core.outbox := [utf8 (dump (error_envelope "invalid start byte"))];
        core.client_closed := false;
        core.timers := [];
        core.submitted := [] |}).
Proof.
  etransitivity.
  - apply (undecodable_bytes_reported sample_text sample_loads sample_dumps
             sample_registry (received [Byte.xff]) [] (core.new_connection [])
             Byte.xff [] (utf8 (dump (error_envelope "invalid start byte")))
             (Exn UnicodeDecodeError "invalid start byte"));
      vm_compute; reflexivity.
  - vm_compute. reflexivity.
Defined.

(** A connection kept, one made, and one refused. *)
Lemma connect_outcomes_witness :
  server.connect addon_down cached = (Return true, cached)
  /\ server.connect (answers []) unconnected
     = (Return true,
        {| server.host := "localhost"; server.port := 9876; server.sock := Some 4%nat |})
  /\ server.connect addon_down unconnected = (Return false, unconnected).
Proof.
  split; [|split].
  - pose proof (connect_outcomes addon_down cached 3 boom) as (Hkept & _ & _).
    apply Hkept. reflexivity.
  - pose proof (connect_outcomes (answers []) unconnected 4 boom) as (_ & Hmade & _).
    apply Hmade; reflexivity.
  - pose proof (connect_outcomes addon_down unconnected 4
                  (Exn ConnectionError "[Errno 111] Connection refused"))
      as (_ & _ & Hrefused).
    apply Hrefused.
    + reflexivity.
    + right. split; reflexivity.
    + reflexivity.
Defined.

(** A command sent while the addon does not listen. *)
Lemma send_without_connection_witness :
  server.send_command sample_text sample_loads sample_dumps addon_down
    "ping" (PDict []) unconnected
  = (Raise (Exn ConnectionError "Not connected to Blender"), unconnected).
Proof.
  apply (send_without_connection sample_text sample_loads sample_dumps addon_down
           "ping" (PDict []) unconnected 4
           (Exn ConnectionError "[Errno 111] Connection refused")).
  - reflexivity.
  - right. split; reflexivity.
  - reflexivity.
Defined.

(** The answer to a failing command, and one that is no object. *)
Lemma response_is_unwrapped_witness :
  server.send_command sample_text sample_loads sample_dumps
    (answers [Return (utf8 (dump (error_envelope "boom")))]) "fail" (PDict []) cached
  = (Return (Some (PDict [("error", PStr "boom")])), cached)
  /\ server.send_command sample_text sample_loads sample_dumps
       (answers [Return (utf8 "[]")]) "ping" (PDict []) cached
     = (Raise (Exn PlainException
                 "Communication error with Blender: 'list' object has no attribute 'get'"),
        {| server.host := "localhost"; server.port := 9876; server.sock := None |}).
Proof.
  split.
  - apply (response_is_unwrapped sample_text sample_loads sample_dumps
             (answers [Return (utf8 (dump (error_envelope "boom")))]) "fail" (PDict [])
             cached 3 fail_bytes (utf8 (dump (error_envelope "boom")))
             (error_envelope "boom")); vm_compute; reflexivity.
  - apply (response_is_unwrapped sample_text sample_loads sample_dumps
             (answers [Return (utf8 "[]")]) "ping" (PDict [])
             cached 3 ping_bytes (utf8 "[]") (PList [])); vm_compute; reflexivity.
Defined.

(** A ping that arrives in three pieces, or is cut off after two. *)
Lemma receive_joins_chunks_witness :
  server.receive_full_response sample_loads
    [Return (take 9 ping_bytes); Return (take 5 (drop 9 ping_bytes));
     Return (drop 14 ping_bytes)] []
  = Some (Return ping_bytes)
  /\ server.receive_full_response sample_loads
       [Return (take 9 ping_bytes); Return (take 5 (drop 9 ping_bytes)); Return []] []
     = Some (Return (take 14 ping_bytes))
  /\ server.receive_full_response sample_loads
       [Return (take 9 ping_bytes); Return (take 5 (drop 9 ping_bytes))] []
     = None.
Proof.
  pose proof (receive_joins_chunks sample_loads
                [take 9 ping_bytes; take 5 (drop 9 ping_bytes)]
                (drop 14 ping_bytes) [] [] ping_command) as Hthm.
  destruct Hthm as (Hwhole & Hclosed & Hopen); [vm_compute; reflexivity|].
  split; [|split].
  - etransitivity; [apply Hwhole|].
    + vm_compute. discriminate.
    + vm_compute. reflexivity.
    + vm_compute. reflexivity.
  - etransitivity; [exact Hclosed|]. vm_compute. reflexivity.
  - exact Hopen.
Defined.

(** The first call reads the variables; a later call with other variables,
    and the addon gone, returns the same connection. *)
Lemma connection_is_cached_witness :
  exists c,
    c = {| server.host := "blender.local"; server.port := 9999;
           server.sock := Some 4%nat |}
    /\ server.get_blender_connection sample_int (answers []) other_variables None
       = (Return c, Some c)
    /\ server.get_blender_connection sample_int addon_down no_variables (Some c)
       = (Return c, Some c).
Proof.
  pose proof (connection_is_cached sample_int (answers []) addon_down
                other_variables no_variables 9999 4 boom) as Hthm.
  destruct Hthm as [Hfirst _]; [vm_compute; reflexivity|].
  apply Hfirst; reflexivity.
Defined.

(** The greeting, called by name from the client and answered by the
    handler registered for it. *)
Lemma call_crosses_the_bridge_witness :
  core.outbox
    (core.read_loop sample_text greeting_loads sample_dumps greeting_registry
       [greeted] (core.new_connection [])).2
  = [pong_bytes]
  /\ server.send_command sample_text greeting_loads sample_dumps
       (answers [Return pong_bytes]) "hello" (PDict []) cached
     = (Return (Some (PStr "pong")), cached).
Proof.
  pose proof (call_crosses_the_bridge sample_text greeting_loads sample_dumps
                greeting_registry "hello" ping_handler [] (PStr "pong") tt tt 990
                greeted (core.new_connection []) (answers [Return pong_bytes])
                cached 3 (hd Byte.x00 hello_bytes) (hd Byte.x00 pong_bytes)
                (tl hello_bytes) (tl pong_bytes)) as Hthm.
  apply Hthm; try (vm_compute; reflexivity).
  - discriminate.
  - cbn. lia.
Defined.
